(** * MercuryiPS: the response parsers and the supervised field ramp

    A shallow embedding of [mercuryiPS.py], the qcodes driver of the Oxford
    MercuryiPS magnet power supply.

    - Python [str] values are [string]; the replies of the instrument are
      raw lines, parsed by the driver's own parsers.
    - Numbers are exact rationals [Q]: the instrument reports decimal
      numbers, and the rounding of binary64 is not part of this model.
      Comparisons and the division by zero of Python are those of [Q].
    - An exception is a value of [exn]; code that can raise returns an
      [outcome]. *)

From Stdlib Require Import Bool Arith ZArith QArith Qabs Lia List Ascii String.
Import ListNotations.

Open Scope string_scope.

(** ** Exceptions and outcomes *)

Inductive exn : Type :=
| VisaIOError                       (* the transport got no reply *)
| IndexError                        (* [l[-1]] on an empty list *)
| KeyError (key : string)           (* a token or label outside a value mapping *)
| ValueError (msg : string)         (* [float] on a bad literal, [raise ValueError] *)
| ValidationError (value lo hi : Q) (* the ValueError of [vals.Numbers]: value and range *)
| TypeError (msg : string)          (* [raise] of something that is no exception *)
| ZeroDivisionError.

Inductive outcome (A : Type) : Type :=
| Ok (a : A)
| Raise (e : exn).
Arguments Ok {A} a.
Arguments Raise {A} e.

(** ** Python string primitives *)

Module Py.

(** [s.split(sep)] for a one-character separator: never empty, the
    empty string splits into one empty segment. *)
Fixpoint split (sep : ascii) (s : string) : list string :=
  match s with
  | EmptyString => [EmptyString]
  | String c s' =>
      if Ascii.eqb c sep then EmptyString :: split sep s'
      else match split sep s' with
           | seg :: segs => String c seg :: segs
           | [] => [String c EmptyString]
           end
  end.

(** [l[-1]]: the last element, IndexError on the empty list. *)
Fixpoint index_last {A : Type} (l : list A) : outcome A :=
  match l with
  | [] => Raise IndexError
  | [a] => Ok a
  | _ :: l' => index_last l'
  end.

(** [s[:-n]] for [n > 0]: all but the last [n] characters, the empty
    string when [s] has at most [n] of them. *)
Definition drop_last (n : nat) (s : string) : string :=
  substring 0 (String.length s - n) s.

(** No character of [s] is [sep]. *)
Fixpoint free_of (sep : ascii) (s : string) : bool :=
  match s with
  | EmptyString => true
  | String c s' => negb (Ascii.eqb c sep) && free_of sep s'
  end.

(** *** Decimal literals, the part of [float(str)] the instrument uses

    [sign? digits? (. digits?)?] with at least one digit.  Python's
    [float] also reads exponents, [inf], [nan], underscores and blanks
    around the literal; those inputs are outside this model. *)

Definition digit (c : ascii) : option Z :=
  let n := nat_of_ascii c in
  if (48 <=? n)%nat && (n <=? 57)%nat then Some (Z.of_nat (n - 48)) else None.

(** Reads a run of digits: the number read so far and how many digits. *)
Fixpoint digits (acc : Z) (count : nat) (s : string) : option (Z * nat) :=
  match s with
  | EmptyString => Some (acc, count)
  | String c s' =>
      match digit c with
      | Some d => digits (10 * acc + d) (S count) s'
      | None => None
      end
  end.

(** Cuts [s] at its first dot, if any. *)
Fixpoint cut_dot (s : string) : string * option string :=
  match s with
  | EmptyString => (EmptyString, None)
  | String c s' =>
      if Ascii.eqb c "."%char then (EmptyString, Some s')
      else let (i, f) := cut_dot s' in (String c i, f)
  end.

Definition unsigned_literal (s : string) : option Q :=
  let (i, f) := cut_dot s in
  match digits 0 0 i, digits 0 0 (match f with Some f' => f' | None => EmptyString end) with
  | Some (iv, ic), Some (fv, fc) =>
      if (ic + fc =? 0)%nat then None
      else Some (Qred (Qmake (iv * 10 ^ Z.of_nat fc + fv) (Z.to_pos (10 ^ Z.of_nat fc))))
  | _, _ => None
  end.

Definition float (s : string) : outcome Q :=
  let signed :=
    match s with
    | String c s' =>
        if Ascii.eqb c "-"%char then option_map Qopp (unsigned_literal s')
        else if Ascii.eqb c "+"%char then unsigned_literal s'
        else unsigned_literal s
    | EmptyString => unsigned_literal s
    end in
  match signed with
  | Some q => Ok q
  | None => Raise (ValueError ("could not convert string to float: " ++ s))
  end.

(** The literals [float] is specified on here. *)
Definition is_decimal (s : string) : bool :=
  match float s with Ok _ => true | Raise _ => false end.

End Py.

(** ** The response parsers of the driver *)

Definition _preparser (bare_resp : string) : outcome string :=
  Py.index_last (Py.split ":" bare_resp).

Definition _singleunit_parser (value : string) : outcome Q :=
  match Py.index_last (Py.split ":" value) with
  | Ok seg => Py.float (Py.drop_last 1 seg)
  | Raise e => Raise e
  end.

Definition _rate_parser (value : string) : outcome Q :=
  match Py.index_last (Py.split ":" value) with
  | Ok seg => Py.float (Py.drop_last 3 seg)
  | Raise e => Raise e
  end.

(** ** The instrument: transport, clock and console

    The transport is used in lock step: every command sent takes the next
    line the device answers.  [replies] is what the device will answer from
    now on; when it is exhausted the round trip times out (VisaIOError).
    [log] records, oldest first, what the driver did to the outside world. *)

Inductive event : Type :=
| Send (cmd : string)                 (* a line written to the transport *)
| Sleep (seconds : Q)                 (* [time.sleep] *)
| Print (text : string)               (* [print] *)
| TqdmWrite (text ending : string).   (* [tqdm.write(text, end=ending)] *)

Record instrument : Type := mkInstrument {
  t_limit : Q;              (* [self.t_limit] *)
  replies : list string;
  log : list event
}.

(** [__init__]: the default quench limit, nothing sent yet. *)
Definition init (device : list string) : instrument :=
  {| t_limit := 5; replies := device; log := [] |}.

(** The text Python gives a float, in [str(x)] and in [{x:.1f}].  The
    driver only passes these texts on, so they are left to the caller. *)
Class Format : Type := {
  str : Q -> string;
  format_1f : Q -> string
}.

(** A computation of the driver: from an instrument to an outcome and the
    instrument afterwards; [None] when the polling loop was given too few
    iterations to finish. *)
Definition M (A : Type) : Type := instrument -> option (outcome A * instrument).

Definition ret {A : Type} (a : A) : M A := fun i => Some (Ok a, i).
Definition raise {A : Type} (e : exn) : M A := fun i => Some (Raise e, i).
Definition unfinished {A : Type} : M A := fun _ => None.

Definition bind {A B : Type} (m : M A) (k : A -> M B) : M B :=
  fun i =>
    match m i with
    | Some (Ok a, i') => k a i'
    | Some (Raise e, i') => Some (Raise e, i')
    | None => None
    end.

Declare Scope driver_scope.
Delimit Scope driver_scope with driver.
Notation "x <- m ;; k" := (bind m (fun x => k))
  (at level 100, m at next level, right associativity) : driver_scope.
Notation "m ;; k" := (bind m (fun _ => k))
  (at level 100, right associativity) : driver_scope.
Open Scope driver_scope.

Definition lift {A : Type} (o : outcome A) : M A := fun i => Some (o, i).

Definition emit (e : event) : M unit :=
  fun i => Some (Ok tt, {| t_limit := t_limit i; replies := replies i; log := (log i ++ [e])%list |}).

(** [self.ask(cmd)]: write the line, read the answer. *)
Definition ask (cmd : string) : M string :=
  fun i =>
    let sent := (log i ++ [Send cmd])%list in
    match replies i with
    | [] => Some (Raise VisaIOError, {| t_limit := t_limit i; replies := []; log := sent |})
    | r :: rs => Some (Ok r, {| t_limit := t_limit i; replies := rs; log := sent |})
    end.

Definition sleep (seconds : Q) : M unit := emit (Sleep seconds).

(** ** The parameters of the driver

    A qcodes parameter read sends [get_cmd], applies [get_parser] and, with
    a [val_mapping], maps the token back to its label; a write maps the
    label to its token and calls [set_cmd].  Every [set_cmd] of the driver
    is an [ask]: the acknowledgement of the device is read and dropped. *)

Definition uid : string := "GRPZ".
Definition psu_string : string := "PSU".

Definition val_mapping : list (string * string) :=
  [("HOLD", "HOLD"); ("TO SET", "RTOS"); ("CLAMP", "CLMP"); ("TO ZERO", "RTOZ")].

Fixpoint lookup (key : string) (table : list (string * string)) : option string :=
  match table with
  | [] => None
  | (k, v) :: table' => if String.eqb key k then Some v else lookup key table'
  end.

Definition inverse (table : list (string * string)) : list (string * string) :=
  map (fun kv => (snd kv, fst kv)) table.

Definition field_get : M Q :=
  r <- ask ("READ:DEV:" ++ uid ++ ":" ++ psu_string ++ ":SIG:FLD") ;;
  lift (_singleunit_parser r).

Definition field_target_set `{Format} (x : Q) : M unit :=
  ask ("SET:DEV:" ++ uid ++ ":" ++ psu_string ++ ":SIG:FSET:" ++ str x) ;;
  ret tt.

(** What a read of [ramp_status] makes of a reply: [get_parser], then the
    value mapping backwards. *)
Definition ramp_status_decode (r : string) : outcome string :=
  match _preparser r with
  | Ok tok =>
      match lookup tok (inverse val_mapping) with
      | Some label => Ok label
      | None => Raise (KeyError tok)
      end
  | Raise e => Raise e
  end.

Definition ramp_status_get : M string :=
  r <- ask ("READ:DEV:" ++ uid ++ ":" ++ psu_string ++ ":ACTN") ;;
  lift (ramp_status_decode r).

Definition ramp_status_set (label : string) : M unit :=
  match lookup label val_mapping with
  | Some tok =>
      ask ("SET:DEV:" ++ uid ++ ":" ++ psu_string ++ ":ACTN:" ++ tok) ;;
      ret tt
  | None => raise (KeyError label)
  end.

Definition temp_get : M Q :=
  r <- ask "READ:DEV:MB1.T1:TEMP:SIG:TEMP" ;;
  lift (_singleunit_parser r).

Definition t_limit_setter (limit : Q) : M unit :=
  fun i => Some (Ok tt, {| t_limit := limit; replies := replies i; log := log i |}).

Definition t_limit_reader : M Q := fun i => Some (Ok (t_limit i), i).

Definition temp_limit_get : M Q := t_limit_reader.
Definition temp_limit_set (x : Q) : M unit := t_limit_setter x.

Definition switch_heater_get : M string :=
  r <- ask ("READ:DEV:" ++ uid ++ ":" ++ psu_string ++ ":SIG:SWHT") ;;
  lift (_preparser r).

Definition switch_heater_set (x : string) : M unit :=
  ask ("SET:DEV:" ++ uid ++ ":" ++ psu_string ++ ":SIG:SWHT:" ++ x) ;;
  ret tt.

(** ** The operations of the driver *)

Definition switch_heater_on_and_wait : M unit :=
  h <- switch_heater_get ;;
  if String.eqb h "OFF" then
    switch_heater_set "ON" ;;
    sleep (60 * 10)
  else ret tt.

Definition ramp_to_target : M unit :=
  status <- ramp_status_get ;;
  (if String.eqb status "CLAMP" then ramp_status_set "HOLD" else ret tt) ;;
  ramp_status_set "TO SET".

(** The character [\r]. *)
Definition carriage_return : string := String (ascii_of_nat 13) EmptyString.

Definition spaces30 : string := "                              ".

(** The progress fraction of [_print_field_status]. *)
Definition progress (start current stop : Q) : outcome Q :=
  if Qeq_bool (start - stop) 0 then Raise ZeroDivisionError
  else Ok (Qabs ((start - current) / (start - stop))).

Definition _print_field_status `{Format} (start current stop : Q) : M unit :=
  status <- lift (progress start current stop) ;;
  if Qlt_le_dec status 1 then
    emit (TqdmWrite ("Magnetic field ramp " ++ format_1f (status * 100) ++ "% done" ++ spaces30) carriage_return)
  else
    emit (TqdmWrite ("Waiting for field stabilization" ++ spaces30) carriage_return).

(** The message of the ValueError raised by the interlock. *)
Definition interlock_message `{Format} (limit reached : Q) : string :=
  "Magnet ramp stopped since its temperature" ++
  "exceeded the safety limit:" ++
  "Temperature safety limit = " ++ str limit ++
  "Temperature reached = " ++ str reached.

(** The [while] loop of [set_field_and_ramp_blocking]; [fuel] bounds the
    number of times its condition is evaluated. *)
Fixpoint ramp_poll `{Format} (fuel : nat) (start target : Q) : M unit :=
  match fuel with
  | O => unfinished
  | S fuel' =>
      status <- ramp_status_get ;;
      if String.eqb status "TO SET" then
        t <- temp_get ;;
        limit <- temp_limit_get ;;
        if Qlt_le_dec limit t then
          ramp_status_set "HOLD" ;;
          limit' <- temp_limit_get ;;
          reached <- temp_get ;;
          raise (ValueError (interlock_message limit' reached))
        else
          sleep (1 # 10) ;;
          current <- field_get ;;
          _print_field_status start current target ;;
          ramp_poll fuel' start target
      else ret tt
  end.

Definition heater_off_text : string :=
  "Switch heater is off. Use switch_heater_on_and_wait() function.".

(** [raise print(...)]: the text is printed, [print] returns [None], and
    raising [None] is a TypeError. *)
Definition raise_print {A : Type} (text : string) : M A :=
  emit (Print text) ;;
  raise (TypeError "exceptions must derive from BaseException").

Definition set_field_and_ramp_blocking `{Format} (fuel : nat) (target : Q) : M unit :=
  h <- switch_heater_get ;;
  (if String.eqb h "OFF" then raise_print heater_off_text else ret tt) ;;
  start <- field_get ;;
  field_target_set target ;;
  ramp_to_target ;;
  ramp_poll fuel start target.

(** The bounds of [vals.Numbers(min_value = -7.0, max_value = 7.0)]. *)
Definition field_min : Q := -7.
Definition field_max : Q := 7.

(** Modelled from the spec: the validator [vals.Numbers] belongs to qcodes
    and is not among the sources; a value is accepted when it lies between
    the bounds, both included. *)
Definition numbers_valid (lo hi x : Q) : bool := Qle_bool lo x && Qle_bool x hi.

(** Modelled from the spec: the write path of a qcodes parameter is not
    among the sources; a write first validates the value against [vals],
    rejecting it with the allowed range before anything is sent, and then
    calls [set_cmd], here the supervised ramp. *)
Definition field_set `{Format} (fuel : nat) (x : Q) : M unit :=
  if numbers_valid field_min field_max x then set_field_and_ramp_blocking fuel x
  else raise (ValidationError x field_min field_max).

(** The commands of a log, in the order they were sent. *)
Fixpoint commands (l : list event) : list string :=
  match l with
  | [] => []
  | Send cmd :: l' => cmd :: commands l'
  | _ :: l' => commands l'
  end.

(** A write command of the wire protocol. *)
Definition is_write (cmd : string) : bool := String.prefix "SET:" cmd.

(** ** A formatter for the examples: finite decimals, as Python prints them
    for the short decimal values of this protocol. *)

Module Show.

Fixpoint digits_of (fuel : nat) (n : Z) (acc : string) : string :=
  match fuel with
  | O => acc
  | S fuel' =>
      let acc' := String (ascii_of_nat (48 + Z.to_nat (n mod 10))) acc in
      if (n / 10 =? 0)%Z then acc' else digits_of fuel' (n / 10) acc'
  end.

Definition nat_text (n : Z) : string := digits_of (S (Z.to_nat n)) n "".

(** [n / 10^places] with exactly [places] digits after the dot; [n >= 0]. *)
Fixpoint frac_text (places : nat) (n : Z) (acc : string) : string * Z :=
  match places with
  | O => (acc, n)
  | S p => frac_text p (n / 10) (String (ascii_of_nat (48 + Z.to_nat (n mod 10))) acc)
  end.

Definition fixed (places : nat) (q : Q) : string :=
  let scaled := (Z.abs (Qnum q) * 10 ^ Z.of_nat places / Zpos (Qden q))%Z in
  let (frac, whole) := frac_text places scaled "" in
  (if (Qnum q <? 0)%Z then "-" else "") ++ nat_text whole ++ "." ++ frac.

Definition one_place : Format := {| str := fixed 1; format_1f := fixed 1 |}.

End Show.

(** ** Scenarios of the polling loop *)

(** The replies to one iteration that goes on: to the status, the
    temperature and the field read. *)
Definition poll : Type := (string * string * string)%type.

(** The status reads TO SET, the temperature is within [limit] and the
    field reading parses. *)
Definition quiet_poll (limit : Q) (p : poll) : bool :=
  let '(s, t, f) := p in
  match ramp_status_decode s, _singleunit_parser t, _singleunit_parser f with
  | Ok label, Ok tv, Ok _ => String.eqb label "TO SET" && Qle_bool tv limit
  | _, _, _ => false
  end.

Fixpoint poll_replies (polls : list poll) : list string :=
  match polls with
  | [] => []
  | (s, t, f) :: polls' => s :: t :: f :: poll_replies polls'
  end.

(** The commands of one iteration that goes on, and of [n] of them. *)
Definition poll_commands : list string :=
  ["READ:DEV:GRPZ:PSU:ACTN"; "READ:DEV:MB1.T1:TEMP:SIG:TEMP"; "READ:DEV:GRPZ:PSU:SIG:FLD"].

Fixpoint polls_commands (n : nat) : list string :=
  match n with
  | O => []
  | S n' => (poll_commands ++ polls_commands n')%list
  end.

(** A device that starts clamped at 0 T and ramps to 1 T in two polls. *)
Definition device_from_clamp : list string :=
  ["STAT:DEV:GRPZ:PSU:SIG:SWHT:ON"; "STAT:DEV:GRPZ:PSU:SIG:FLD:0.0000T";
   "STAT:SET:DEV:GRPZ:PSU:SIG:FSET:1.0:VALID"; "STAT:DEV:GRPZ:PSU:ACTN:CLMP";
   "STAT:SET:DEV:GRPZ:PSU:ACTN:HOLD:VALID"; "STAT:SET:DEV:GRPZ:PSU:ACTN:RTOS:VALID";
   "STAT:DEV:GRPZ:PSU:ACTN:RTOS"; "STAT:DEV:MB1.T1:TEMP:SIG:TEMP:4.1000K";
   "STAT:DEV:GRPZ:PSU:SIG:FLD:0.5000T";
   "STAT:DEV:GRPZ:PSU:ACTN:RTOS"; "STAT:DEV:MB1.T1:TEMP:SIG:TEMP:5.0000K";
   "STAT:DEV:GRPZ:PSU:SIG:FLD:1.0000T";
   "STAT:DEV:GRPZ:PSU:ACTN:HOLD"].

(** A device whose magnet warms up to 6 K in the first poll and has cooled
    to 4 K when the temperature is read again. *)
Definition device_warm_then_cool : list string :=
  ["STAT:DEV:GRPZ:PSU:SIG:SWHT:ON"; "STAT:DEV:GRPZ:PSU:SIG:FLD:0.0000T";
   "STAT:SET:DEV:GRPZ:PSU:SIG:FSET:1.0:VALID"; "STAT:DEV:GRPZ:PSU:ACTN:HOLD";
   "STAT:SET:DEV:GRPZ:PSU:ACTN:RTOS:VALID";
   "STAT:DEV:GRPZ:PSU:ACTN:RTOS"; "STAT:DEV:MB1.T1:TEMP:SIG:TEMP:6.0000K";
   "STAT:SET:DEV:GRPZ:PSU:ACTN:HOLD:VALID"; "STAT:DEV:MB1.T1:TEMP:SIG:TEMP:4.0000K"].

(** The same device, but it stops answering after it has acknowledged the
    HOLD write. *)
Definition device_warm_then_silent : list string :=
  ["STAT:DEV:GRPZ:PSU:SIG:SWHT:ON"; "STAT:DEV:GRPZ:PSU:SIG:FLD:0.0000T";
   "STAT:SET:DEV:GRPZ:PSU:SIG:FSET:1.0:VALID"; "STAT:DEV:GRPZ:PSU:ACTN:HOLD";
   "STAT:SET:DEV:GRPZ:PSU:ACTN:RTOS:VALID";
   "STAT:DEV:GRPZ:PSU:ACTN:RTOS"; "STAT:DEV:MB1.T1:TEMP:SIG:TEMP:6.0000K";
   "STAT:SET:DEV:GRPZ:PSU:ACTN:HOLD:VALID"].

(** ** The other parameters of the driver

    Each is one [add_parameter] of [__init__]: a read is [ask get_cmd]
    followed by [get_parser]; a write is the [ask] of its [set_cmd]. *)

Definition voltage_get : M Q :=
  r <- ask ("READ:DEV:" ++ uid ++ ":" ++ psu_string ++ ":SIG:VOLT") ;;
  lift (_singleunit_parser r).

Definition current_get : M Q :=
  r <- ask ("READ:DEV:" ++ uid ++ ":" ++ psu_string ++ ":SIG:CURR") ;;
  lift (_singleunit_parser r).

Definition current_persistent_get : M Q :=
  r <- ask ("READ:DEV:" ++ uid ++ ":" ++ psu_string ++ ":SIG:PCUR") ;;
  lift (_singleunit_parser r).

Definition current_target_get : M Q :=
  r <- ask ("READ:DEV:" ++ uid ++ ":" ++ psu_string ++ ":SIG:CSET") ;;
  lift (_singleunit_parser r).

Definition field_target_get : M Q :=
  r <- ask ("READ:DEV:" ++ uid ++ ":" ++ psu_string ++ ":SIG:FSET") ;;
  lift (_singleunit_parser r).

Definition current_ramp_rate_get : M Q :=
  r <- ask ("READ:DEV:" ++ uid ++ ":" ++ psu_string ++ ":SIG:RCST") ;;
  lift (_rate_parser r).

Definition field_ramp_rate_get : M Q :=
  r <- ask ("READ:DEV:" ++ uid ++ ":" ++ psu_string ++ ":SIG:RFST") ;;
  lift (_rate_parser r).

Definition field_ramp_rate_set `{Format} (x : Q) : M unit :=
  ask ("SET:DEV:" ++ uid ++ ":" ++ psu_string ++ ":SIG:RFST:" ++ str x) ;;
  ret tt.

Definition field_persistent_get : M Q :=
  r <- ask ("READ:DEV:" ++ uid ++ ":" ++ psu_string ++ ":SIG:PFLD") ;;
  lift (_singleunit_parser r).

Definition ATOB_get : M Q :=
  r <- ask ("READ:DEV:" ++ uid ++ ":" ++ psu_string ++ ":ATOB") ;;
  lift (_rate_parser r).

Definition ATOB_set `{Format} (x : Q) : M unit :=
  ask ("SET:DEV:" ++ uid ++ ":" ++ psu_string ++ ":ATOB:" ++ str x) ;;
  ret tt.

(** The numeric parameters read from the device: the command sent, the
    number of unit characters the parser drops, and the read itself. *)
Definition numeric_reads : list (string * nat * M Q) :=
  [("READ:DEV:GRPZ:PSU:SIG:VOLT", 1%nat, voltage_get);
   ("READ:DEV:GRPZ:PSU:SIG:CURR", 1%nat, current_get);
   ("READ:DEV:GRPZ:PSU:SIG:PCUR", 1%nat, current_persistent_get);
   ("READ:DEV:GRPZ:PSU:SIG:CSET", 1%nat, current_target_get);
   ("READ:DEV:GRPZ:PSU:SIG:FSET", 1%nat, field_target_get);
   ("READ:DEV:GRPZ:PSU:SIG:RCST", 3%nat, current_ramp_rate_get);
   ("READ:DEV:GRPZ:PSU:SIG:RFST", 3%nat, field_ramp_rate_get);
   ("READ:DEV:GRPZ:PSU:SIG:FLD", 1%nat, field_get);
   ("READ:DEV:GRPZ:PSU:SIG:PFLD", 1%nat, field_persistent_get);
   ("READ:DEV:GRPZ:PSU:ATOB", 3%nat, ATOB_get);
   ("READ:DEV:MB1.T1:TEMP:SIG:TEMP", 1%nat, temp_get)].

(** ** Predicates on runs *)

(** The commands the polling loop may send. *)
Definition loop_command (cmd : string) : bool :=
  existsb (String.eqb cmd) ("SET:DEV:GRPZ:PSU:ACTN:HOLD" :: poll_commands).

Definition reads_only (l : list event) : bool :=
  forallb (fun cmd => negb (is_write cmd)) (commands l).

(** [m] always finishes, and never gives a reply back to the device. *)
Definition bounded {A : Type} (m : M A) : Prop :=
  forall i, exists o i',
    m i = Some (o, i') /\ (List.length (replies i') <= List.length (replies i))%nat.

(** [m] always finishes, and takes a reply when it returns normally. *)
Definition consuming {A : Type} (m : M A) : Prop :=
  forall i, exists o i',
    m i = Some (o, i') /\
    match o with
    | Ok _ => (List.length (replies i') < List.length (replies i))%nat
    | Raise _ => (List.length (replies i') <= List.length (replies i))%nat
    end.

(** [m] finishes on every instrument with fewer than [n] replies pending. *)
Definition finishes {A : Type} (n : nat) (m : M A) : Prop :=
  forall i, (List.length (replies i) < n)%nat -> exists r, m i = Some r.

(** What a finished run of [m] did: it kept the limit, and only added to
    the log, commands that satisfy [allowed]. *)
Definition sends {A : Type} (allowed : string -> bool) (m : M A) : Prop :=
  forall i o i', m i = Some (o, i') ->
    t_limit i' = t_limit i /\
    exists new, log i' = (log i ++ new)%list /\ forallb allowed (commands new) = true.

(** A finished run of [m] never returns normally. *)
Definition raises {A : Type} (m : M A) : Prop :=
  forall i o i', m i = Some (o, i') -> exists e, o = Raise e.

(** The reads among the commands of the loop. *)
Definition loop_read (cmd : string) : bool := loop_command cmd && negb (is_write cmd).

(** What a finished run of the loop did: it kept the limit, sent only
    commands of the loop and, when it returned normally, only reads. *)
Definition loop_run {A : Type} (m : M A) : Prop :=
  forall i o i', m i = Some (o, i') ->
    t_limit i' = t_limit i /\
    exists new, log i' = (log i ++ new)%list /\
      forallb loop_command (commands new) = true /\
      (forall a, o = Ok a -> reads_only new = true).

(** The commands a supervised ramp to [target] may send. *)
Definition ramp_command `{Format} (target : Q) (cmd : string) : bool :=
  existsb (String.eqb cmd)
    ["READ:DEV:GRPZ:PSU:SIG:SWHT"; "READ:DEV:GRPZ:PSU:SIG:FLD";
     "SET:DEV:GRPZ:PSU:SIG:FSET:" ++ str target; "READ:DEV:GRPZ:PSU:ACTN";
     "SET:DEV:GRPZ:PSU:ACTN:HOLD"; "SET:DEV:GRPZ:PSU:ACTN:RTOS";
     "READ:DEV:MB1.T1:TEMP:SIG:TEMP"].

(** * Properties *)

(** ** The model on the lines of the protocol *)

Example rate_rcst : _rate_parser "STAT:DEV:GRPZ:PSU:SIG:RCST:0.0500A/m" = Ok (1 # 20).
Proof. reflexivity. Qed.

Example preparser_actn : _preparser "STAT:DEV:GRPZ:PSU:ACTN:HOLD" = Ok "HOLD".
Proof. reflexivity. Qed.

Example float_forms :
  Py.float "-.5" = Ok (-1 # 2) /\ Py.float "12" = Ok 12 /\ Py.float "1." = Ok 1 /\
  Py.is_decimal "." = false /\ Py.is_decimal "" = false /\ Py.is_decimal "1.2T" = false.
Proof. repeat split; reflexivity. Qed.

Example show_1 : @str Show.one_place 1 = "1.0".
Proof. reflexivity. Qed.

(** ** Splitting and slicing *)

Section Strings.

Variable sep : ascii.

Lemma split_nonempty (s : string) : Py.split sep s <> [].
Proof.
  destruct s as [|c s]; simpl; [discriminate|].
  destruct (Ascii.eqb c sep); [discriminate|].
  destruct (Py.split sep s); discriminate.
Qed.

Lemma split_free (s : string) :
  Py.free_of sep s = true -> Py.split sep s = [s].
Proof.
  induction s as [|c s IH]; simpl; [reflexivity|].
  intros H. apply andb_true_iff in H as [Hc Hs].
  apply negb_true_iff in Hc. rewrite Hc, (IH Hs). reflexivity.
Qed.

Lemma split_app (pre rest : string) :
  Py.split sep (pre ++ String sep rest) = (Py.split sep pre ++ Py.split sep rest)%list.
Proof.
  induction pre as [|c pre IH]; simpl.
  - rewrite Ascii.eqb_refl. reflexivity.
  - destruct (Ascii.eqb c sep); [rewrite IH; reflexivity|].
    rewrite IH. pose proof (split_nonempty pre) as Hne.
    destruct (Py.split sep pre); [contradiction|reflexivity].
Qed.

Lemma index_last_app {A : Type} (l1 l2 : list A) :
  l2 <> [] -> Py.index_last (l1 ++ l2)%list = Py.index_last l2.
Proof.
  intros Hne. induction l1 as [|a l1 IH]; [reflexivity|].
  simpl. rewrite IH. destruct (l1 ++ l2)%list eqn:E; [|reflexivity].
  apply app_eq_nil in E as [_ E]. contradiction.
Qed.

(** The last segment of a line that ends in a separator-free [seg]. *)
Lemma last_segment_app (pre seg : string) :
  Py.free_of sep seg = true ->
  Py.index_last (Py.split sep (pre ++ String sep seg)) = Ok seg.
Proof.
  intros H. rewrite split_app, index_last_app by apply split_nonempty.
  rewrite (split_free _ H). reflexivity.
Qed.

Lemma last_segment_free (seg : string) :
  Py.free_of sep seg = true -> Py.index_last (Py.split sep seg) = Ok seg.
Proof. intros H. rewrite (split_free _ H). reflexivity. Qed.

(** Every line is a single segment or ends in a last one. *)
Lemma line_shape (s : string) :
  Py.free_of sep s = true \/
  exists pre seg, s = pre ++ String sep seg /\ Py.free_of sep seg = true.
Proof.
  induction s as [|c s IH]; [left; reflexivity|].
  destruct IH as [Hfree | (pre & seg & -> & Hseg)].
  - destruct (Ascii.eqb c sep) eqn:E.
    + right. exists "", s. apply Ascii.eqb_eq in E. subst c. split; [reflexivity|assumption].
    + left. simpl. rewrite E, Hfree. reflexivity.
  - right. exists (String c pre), seg. split; [reflexivity|assumption].
Qed.

Lemma free_of_app (s1 s2 : string) :
  Py.free_of sep (s1 ++ s2) = Py.free_of sep s1 && Py.free_of sep s2.
Proof.
  induction s1 as [|c s1 IH]; simpl; [reflexivity|].
  rewrite IH, andb_assoc. reflexivity.
Qed.

End Strings.

Lemma length_app (s1 s2 : string) :
  String.length (s1 ++ s2) = (String.length s1 + String.length s2)%nat.
Proof. induction s1 as [|c s1 IH]; simpl; [reflexivity|]. rewrite IH. reflexivity. Qed.

Lemma substring_prefix (s1 s2 : string) :
  substring 0 (String.length s1) (s1 ++ s2) = s1.
Proof.
  induction s1 as [|c s1 IH]; simpl.
  - destruct s2; reflexivity.
  - rewrite IH. reflexivity.
Qed.

(** [(s ++ unit)[:-n]] is [s] when [unit] has [n] characters. *)
Lemma drop_last_app (n : nat) (s unit : string) :
  String.length unit = n -> Py.drop_last n (s ++ unit) = s.
Proof.
  intros H. unfold Py.drop_last. rewrite length_app, H.
  replace (String.length s + n - n)%nat with (String.length s) by lia.
  apply substring_prefix.
Qed.

(** ** Decimal literals hold no field delimiter *)

Lemma digit_not_colon (c : ascii) (d : Z) :
  Py.digit c = Some d -> Ascii.eqb c ":" = false.
Proof.
  intros H. destruct (Ascii.eqb c ":") eqn:E; [|reflexivity].
  apply Ascii.eqb_eq in E. subst c. discriminate H.
Qed.

Lemma digits_free (s : string) :
  forall acc count r, Py.digits acc count s = Some r -> Py.free_of ":" s = true.
Proof.
  induction s as [|c s IH]; simpl; [reflexivity|].
  intros acc count r H. destruct (Py.digit c) as [d|] eqn:Hd; [|discriminate].
  rewrite (digit_not_colon _ _ Hd). simpl. eapply IH, H.
Qed.

Lemma cut_dot_shape (s : string) :
  forall i f, Py.cut_dot s = (i, f) ->
    match f with
    | None => s = i
    | Some f' => s = i ++ String "." f'
    end.
Proof.
  induction s as [|c s IH]; simpl; intros i f H.
  - inversion H. reflexivity.
  - destruct (Ascii.eqb c ".") eqn:E.
    + inversion H. apply Ascii.eqb_eq in E. subst. reflexivity.
    + destruct (Py.cut_dot s) as [i0 f0]. inversion H. subst.
      specialize (IH i0 f eq_refl). destruct f; subst; reflexivity.
Qed.

Lemma unsigned_literal_free (s : string) (q : Q) :
  Py.unsigned_literal s = Some q -> Py.free_of ":" s = true.
Proof.
  unfold Py.unsigned_literal. destruct (Py.cut_dot s) as [i f] eqn:Hcut.
  apply cut_dot_shape in Hcut.
  destruct (Py.digits 0 0 i) as [[iv ic]|] eqn:Hi; [|discriminate].
  destruct f as [f'|].
  - destruct (Py.digits 0 0 f') as [[fv fc]|] eqn:Hf; [|discriminate].
    intros _. subst s. rewrite free_of_app. simpl.
    rewrite (digits_free _ _ _ _ Hi), (digits_free _ _ _ _ Hf). reflexivity.
  - intros _. subst s. eapply digits_free, Hi.
Qed.

Lemma is_decimal_free (num : string) :
  Py.is_decimal num = true -> Py.free_of ":" num = true.
Proof.
  unfold Py.is_decimal, Py.float. destruct num as [|c s].
  - destruct (Py.unsigned_literal "") eqn:E; [|discriminate].
    intros _. reflexivity.
  - destruct (Ascii.eqb c "-") eqn:Em.
    + apply Ascii.eqb_eq in Em. subst c.
      destruct (Py.unsigned_literal s) as [q|] eqn:E; [|discriminate].
      intros _. simpl. eapply unsigned_literal_free, E.
    + destruct (Ascii.eqb c "+") eqn:Ep.
      * apply Ascii.eqb_eq in Ep. subst c.
        destruct (Py.unsigned_literal s) as [q|] eqn:E; [|discriminate].
        intros _. simpl. eapply unsigned_literal_free, E.
      * destruct (Py.unsigned_literal (String c s)) as [q|] eqn:E; [|discriminate].
        intros _. eapply unsigned_literal_free, E.
Qed.

Lemma is_decimal_value (num : string) :
  Py.is_decimal num = true -> exists q, Py.float num = Ok q.
Proof.
  unfold Py.is_decimal. destruct (Py.float num) as [q|e]; [|discriminate].
  intros _. exists q. reflexivity.
Qed.

(** A parser that drops [n] characters reads [num] off [num ++ unit] when
    [unit] has [n] characters and no delimiter. *)
Lemma magnitude_segment (n : nat) (num unit : string) :
  Py.is_decimal num = true -> Py.free_of ":" unit = true -> String.length unit = n ->
  forall reply,
    reply = num ++ unit \/ (exists path, reply = path ++ ":" ++ num ++ unit) ->
    Py.index_last (Py.split ":" reply) = Ok (num ++ unit) /\
    Py.drop_last n (num ++ unit) = num.
Proof.
  intros Hnum Hunit Hlen reply Hshape.
  assert (Hseg : Py.free_of ":" (num ++ unit) = true)
    by (rewrite free_of_app, (is_decimal_free _ Hnum), Hunit; reflexivity).
  split; [|apply drop_last_app, Hlen].
  destruct Hshape as [-> | [path ->]].
  - apply last_segment_free, Hseg.
  - apply (last_segment_app ":" path (num ++ unit) Hseg).
Qed.

(** ** The response parsers *)

Example singleunit_fld :
  _singleunit_parser "READ:DEV:GRPZ:PSU:SIG:FLD:1.2500T" = Ok (5 # 4) /\ 5 # 4 == 1.25.
Proof. split; reflexivity. Qed.

(** C7: on a reply that is, or whose last colon-delimited segment is, a
    decimal number followed by one unit character, [_singleunit_parser]
    returns the number, as [float] reads it. *)
Theorem singleunit_parser_reads_magnitude (reply num unit : string) :
  Py.is_decimal num = true ->
  String.length unit = 1%nat -> Py.free_of ":" unit = true ->
  reply = num ++ unit \/ (exists path, reply = path ++ ":" ++ num ++ unit) ->
  exists q, Py.float num = Ok q /\ _singleunit_parser reply = Ok q.
Proof.
  intros Hnum Hlen Hunit Hshape.
  destruct (magnitude_segment 1 num unit Hnum Hunit Hlen reply Hshape) as [Hlast Hdrop].
  destruct (is_decimal_value _ Hnum) as [q Hq]. exists q. split; [assumption|].
  unfold _singleunit_parser. rewrite Hlast, Hdrop. assumption.
Qed.

Lemma singleunit_parser_reads_magnitude_witness :
  exists q, Py.float "1.2500" = Ok q /\
            _singleunit_parser "READ:DEV:GRPZ:PSU:SIG:FLD:1.2500T" = Ok q.
Proof.
  apply (singleunit_parser_reads_magnitude
           "READ:DEV:GRPZ:PSU:SIG:FLD:1.2500T" "1.2500" "T");
    [reflexivity | reflexivity | reflexivity |].
  right. exists "READ:DEV:GRPZ:PSU:SIG:FLD". reflexivity.
Defined.

(** C5, as stated, fails: with a unit of two characters [_rate_parser]
    also drops the last digit of the number. *)
Lemma rate_parser_two_character_unit :
  Py.is_decimal "1.25" = true /\ String.length "Am" = 2%nat /\
  Py.float "1.25" = Ok (5 # 4) /\
  _rate_parser "STAT:DEV:GRPZ:PSU:SIG:RCST:1.25Am" = Ok (6 # 5) /\
  ~ 6 # 5 == 5 # 4.
Proof. repeat split; try reflexivity. intros H. discriminate H. Qed.

(** C5, amended: on a reply that is, or whose last colon-delimited segment
    is, a decimal number followed by a unit of three characters,
    [_rate_parser] returns the number, as [float] reads it. *)
Theorem rate_parser_reads_rate (reply num unit : string) :
  Py.is_decimal num = true ->
  String.length unit = 3%nat -> Py.free_of ":" unit = true ->
  reply = num ++ unit \/ (exists path, reply = path ++ ":" ++ num ++ unit) ->
  exists q, Py.float num = Ok q /\ _rate_parser reply = Ok q.
Proof.
  intros Hnum Hlen Hunit Hshape.
  destruct (magnitude_segment 3 num unit Hnum Hunit Hlen reply Hshape) as [Hlast Hdrop].
  destruct (is_decimal_value _ Hnum) as [q Hq]. exists q. split; [assumption|].
  unfold _rate_parser. rewrite Hlast, Hdrop. assumption.
Qed.

Lemma rate_parser_reads_rate_witness :
  exists q, Py.float "0.0500" = Ok q /\
            _rate_parser "STAT:DEV:GRPZ:PSU:SIG:RCST:0.0500A/m" = Ok q.
Proof.
  apply (rate_parser_reads_rate
           "STAT:DEV:GRPZ:PSU:SIG:RCST:0.0500A/m" "0.0500" "A/m");
    [reflexivity | reflexivity | reflexivity |].
  right. exists "STAT:DEV:GRPZ:PSU:SIG:RCST". reflexivity.
Defined.

(** C9, as stated, fails: on the empty string [_preparser] does not fail,
    it returns the empty string. *)
Lemma preparser_empty_reply :
  _preparser "" = Ok "" /\ forall e, _preparser "" <> Raise e.
Proof. split; [reflexivity | intros e H; discriminate H]. Qed.

(** C9, amended: [_preparser] is total; on every reply, the empty one
    included, it returns the last colon-delimited segment verbatim: a
    string without colon that is the whole reply or what follows its last
    colon. *)
Theorem preparser_total_last_segment (reply : string) :
  exists seg,
    _preparser reply = Ok seg /\ Py.free_of ":" seg = true /\
    (reply = seg \/ exists path, reply = path ++ ":" ++ seg).
Proof.
  unfold _preparser.
  destruct (line_shape ":" reply) as [Hfree | (path & seg & -> & Hseg)].
  - exists reply. rewrite (last_segment_free _ _ Hfree). auto.
  - exists seg. rewrite (last_segment_app _ _ _ Hseg). split; [reflexivity|].
    split; [assumption|]. right. exists path. reflexivity.
Qed.

(** ** The progress fraction *)

Lemma Qeq_bool_difference (a b : Q) : Qeq_bool (a - b) 0 = true <-> a == b.
Proof.
  rewrite Qeq_bool_iff. split; intros H.
  - rewrite <- (Qplus_0_l b), <- H. ring.
  - rewrite H. ring.
Qed.

Lemma progress_defined (start current stop : Q) :
  ~ start == stop ->
  progress start current stop = Ok (Qabs ((start - current) / (start - stop))).
Proof.
  intros Hne. unfold progress.
  destruct (Qeq_bool (start - stop) 0) eqn:E; [|reflexivity].
  apply Qeq_bool_difference in E. contradiction.
Qed.

(** C8: the progress fraction is [|start - current| / |start - stop|]
    whenever [start] differs from [stop], and then it is 1 as soon as
    [current] equals [stop]; when [start] equals [stop] the division by
    zero is raised. *)
Theorem progress_fraction (start current stop : Q) :
  (~ start == stop ->
   exists f, progress start current stop = Ok f /\
             f == Qabs (start - current) / Qabs (start - stop) /\
             (current == stop -> f == 1)) /\
  (start == stop -> progress start current stop = Raise ZeroDivisionError).
Proof.
  split.
  - intros Hne. rewrite (progress_defined _ _ _ Hne).
    eexists. split; [reflexivity|]. split.
    + unfold Qdiv. rewrite Qabs_Qmult, Qabs_Qinv. reflexivity.
    + intros Hcur. rewrite Hcur.
      assert (Hd : ~ start - stop == 0)
        by (intros H0; apply Hne; apply Qeq_bool_difference, Qeq_bool_iff, H0).
      unfold Qdiv. rewrite (Qmult_inv_r _ Hd). reflexivity.
  - intros Heq. unfold progress.
    apply Qeq_bool_difference in Heq. rewrite Heq. reflexivity.
Qed.

Lemma progress_fraction_witness :
  (exists f, progress 0 1 1 = Ok f /\ f == Qabs (0 - 1) / Qabs (0 - 1) /\ (1 == 1 -> f == 1)) /\
  progress 1 (1 # 2) 1 = Raise ZeroDivisionError.
Proof.
  split.
  - apply (proj1 (progress_fraction 0 1 1)). intros H. discriminate H.
  - apply (proj2 (progress_fraction 1 (1 # 2) 1)). reflexivity.
Defined.

(** ** Running the driver: one command at a time *)

Section Runs.

Context {F : Format}.

Variables (tl : Q) (lg : list event).

Lemma bind_ok {A B : Type} (m : M A) (k : A -> M B) (i i' : instrument) (a : A) :
  m i = Some (Ok a, i') -> bind m k i = k a i'.
Proof. intros H. unfold bind. rewrite H. reflexivity. Qed.

Lemma bind_raise {A B : Type} (m : M A) (k : A -> M B) (i i' : instrument) (e : exn) :
  m i = Some (Raise e, i') -> bind m k i = Some (Raise e, i').
Proof. intros H. unfold bind. rewrite H. reflexivity. Qed.

Lemma switch_heater_get_run (r : string) (rs : list string) :
  switch_heater_get (mkInstrument tl (r :: rs) lg) =
  Some (_preparser r, mkInstrument tl rs (lg ++ [Send "READ:DEV:GRPZ:PSU:SIG:SWHT"])).
Proof. reflexivity. Qed.

Lemma switch_heater_set_run (x r : string) (rs : list string) :
  switch_heater_set x (mkInstrument tl (r :: rs) lg) =
  Some (Ok tt, mkInstrument tl rs (lg ++ [Send ("SET:DEV:GRPZ:PSU:SIG:SWHT:" ++ x)])).
Proof. reflexivity. Qed.

Lemma field_get_run (r : string) (rs : list string) :
  field_get (mkInstrument tl (r :: rs) lg) =
  Some (_singleunit_parser r, mkInstrument tl rs (lg ++ [Send "READ:DEV:GRPZ:PSU:SIG:FLD"])).
Proof. reflexivity. Qed.

Lemma temp_get_run (r : string) (rs : list string) :
  temp_get (mkInstrument tl (r :: rs) lg) =
  Some (_singleunit_parser r, mkInstrument tl rs (lg ++ [Send "READ:DEV:MB1.T1:TEMP:SIG:TEMP"])).
Proof. reflexivity. Qed.

Lemma ramp_status_get_run (r : string) (rs : list string) :
  ramp_status_get (mkInstrument tl (r :: rs) lg) =
  Some (ramp_status_decode r, mkInstrument tl rs (lg ++ [Send "READ:DEV:GRPZ:PSU:ACTN"])).
Proof. reflexivity. Qed.

Lemma ramp_status_hold_run (r : string) (rs : list string) :
  ramp_status_set "HOLD" (mkInstrument tl (r :: rs) lg) =
  Some (Ok tt, mkInstrument tl rs (lg ++ [Send "SET:DEV:GRPZ:PSU:ACTN:HOLD"])).
Proof. reflexivity. Qed.

Lemma ramp_status_hold_timeout :
  ramp_status_set "HOLD" (mkInstrument tl [] lg) =
  Some (Raise VisaIOError, mkInstrument tl [] (lg ++ [Send "SET:DEV:GRPZ:PSU:ACTN:HOLD"])).
Proof. reflexivity. Qed.

Lemma ramp_status_to_set_run (r : string) (rs : list string) :
  ramp_status_set "TO SET" (mkInstrument tl (r :: rs) lg) =
  Some (Ok tt, mkInstrument tl rs (lg ++ [Send "SET:DEV:GRPZ:PSU:ACTN:RTOS"])).
Proof. reflexivity. Qed.

Lemma field_target_set_run (x : Q) (r : string) (rs : list string) :
  field_target_set x (mkInstrument tl (r :: rs) lg) =
  Some (Ok tt, mkInstrument tl rs (lg ++ [Send ("SET:DEV:GRPZ:PSU:SIG:FSET:" ++ str x)])).
Proof. reflexivity. Qed.

End Runs.

(** ** One evaluation of the polling loop *)

Ltac flatten_log := repeat rewrite <- app_assoc; cbn [app].

Section Poll.

Context {F : Format}.

Variables (start target tl : Q) (lg : list event).

(** The loop ends when the status read is not TO SET. *)
Lemma poll_done (fuel : nat) (s label : string) (rest : list string) :
  ramp_status_decode s = Ok label -> String.eqb label "TO SET" = false ->
  ramp_poll (S fuel) start target (mkInstrument tl (s :: rest) lg) =
  Some (Ok tt, mkInstrument tl rest (lg ++ [Send "READ:DEV:GRPZ:PSU:ACTN"])).
Proof.
  intros Hs Hl. cbn [ramp_poll].
  rewrite (bind_ok _ _ _ _ label) by (rewrite ramp_status_get_run, Hs; reflexivity).
  rewrite Hl. reflexivity.
Qed.

(** Below or at the limit the iteration goes on: it sleeps and reads the
    field; nothing is written. *)
Lemma poll_safe (fuel : nat) (s t : string) (tv : Q) (rest : list string) :
  ramp_status_decode s = Ok "TO SET" -> _singleunit_parser t = Ok tv -> tv <= tl ->
  ramp_poll (S fuel) start target (mkInstrument tl (s :: t :: rest) lg) =
  (current <- field_get ;;
   _print_field_status start current target ;;
   ramp_poll fuel start target)
    (mkInstrument tl rest
       (lg ++ [Send "READ:DEV:GRPZ:PSU:ACTN"; Send "READ:DEV:MB1.T1:TEMP:SIG:TEMP";
               Sleep (1 # 10)])).
Proof.
  intros Hs Ht Hle. cbn [ramp_poll].
  rewrite (bind_ok _ _ _ _ "TO SET") by (rewrite ramp_status_get_run, Hs; reflexivity).
  cbn [String.eqb Ascii.eqb Bool.eqb].
  rewrite (bind_ok _ _ _ _ tv) by (rewrite temp_get_run, Ht; reflexivity).
  rewrite (bind_ok _ _ _ _ tl) by reflexivity.
  destruct (Qlt_le_dec tl tv) as [Hlt | _]; [exfalso; exact (Qlt_not_le _ _ Hlt Hle)|].
  rewrite (bind_ok _ _ _ _ tt) by reflexivity.
  cbn [t_limit replies log]. flatten_log. reflexivity.
Qed.

(** Above the limit HOLD is the next command, whatever follows. *)
Lemma poll_trip (fuel : nat) (s t : string) (tv : Q) (rest : list string) :
  ramp_status_decode s = Ok "TO SET" -> _singleunit_parser t = Ok tv -> tl < tv ->
  ramp_poll (S fuel) start target (mkInstrument tl (s :: t :: rest) lg) =
  (ramp_status_set "HOLD" ;;
   limit' <- temp_limit_get ;;
   reached <- temp_get ;;
   raise (ValueError (interlock_message limit' reached)))
    (mkInstrument tl rest
       (lg ++ [Send "READ:DEV:GRPZ:PSU:ACTN"; Send "READ:DEV:MB1.T1:TEMP:SIG:TEMP"])).
Proof.
  intros Hs Ht Hlt. cbn [ramp_poll].
  rewrite (bind_ok _ _ _ _ "TO SET") by (rewrite ramp_status_get_run, Hs; reflexivity).
  cbn [String.eqb Ascii.eqb Bool.eqb].
  rewrite (bind_ok _ _ _ _ tv) by (rewrite temp_get_run, Ht; reflexivity).
  rewrite (bind_ok _ _ _ _ tl) by reflexivity.
  destruct (Qlt_le_dec tl tv) as [_ | Hle]; [|exfalso; exact (Qlt_not_le _ _ Hlt Hle)].
  flatten_log. reflexivity.
Qed.

End Poll.

(** ** Iterations that go on *)

Lemma commands_app (l1 l2 : list event) :
  commands (l1 ++ l2)%list = (commands l1 ++ commands l2)%list.
Proof.
  induction l1 as [|e l1 IH]; [reflexivity|].
  destruct e; simpl; rewrite IH; reflexivity.
Qed.

Lemma quiet_poll_inv (limit : Q) (s t f : string) :
  quiet_poll limit (s, t, f) = true ->
  ramp_status_decode s = Ok "TO SET" /\
  exists tv fv, _singleunit_parser t = Ok tv /\ tv <= limit /\ _singleunit_parser f = Ok fv.
Proof.
  unfold quiet_poll.
  destruct (ramp_status_decode s) as [label|]; [|discriminate].
  destruct (_singleunit_parser t) as [tv|]; [|discriminate].
  destruct (_singleunit_parser f) as [fv|]; [|discriminate].
  intros H. apply andb_true_iff in H as [Hl Hle].
  apply String.eqb_eq in Hl. apply Qle_bool_iff in Hle. subst label.
  split; [reflexivity|]. exists tv, fv. auto.
Qed.

Section Quiet.

Context {F : Format}.

Variables (start target tl : Q).
Hypothesis apart : ~ start == target.

Lemma print_field_status_run (current : Q) (rest : list string) (lg : list event) :
  exists text,
    _print_field_status start current target (mkInstrument tl rest lg) =
    Some (Ok tt, mkInstrument tl rest (lg ++ [TqdmWrite text carriage_return])).
Proof.
  unfold _print_field_status.
  rewrite (bind_ok _ _ _ _ (Qabs ((start - current) / (start - target))))
    by (unfold lift; rewrite (progress_defined _ _ _ apart); reflexivity).
  destruct (Qlt_le_dec _ 1); eexists; reflexivity.
Qed.

(** One whole iteration within the limit: three reads, no write, and the
    loop is evaluated again. *)
Lemma poll_goes_on (fuel : nat) (s t f : string) (rest : list string) (lg : list event) :
  quiet_poll tl (s, t, f) = true ->
  exists lg',
    commands lg' = (commands lg ++ poll_commands)%list /\
    ramp_poll (S fuel) start target (mkInstrument tl (s :: t :: f :: rest) lg) =
    ramp_poll fuel start target (mkInstrument tl rest lg').
Proof.
  intros Hq. apply quiet_poll_inv in Hq as (Hs & tv & fv & Ht & Hle & Hf).
  rewrite (poll_safe _ _ _ _ _ _ _ _ _ Hs Ht Hle).
  rewrite (bind_ok _ _ _ _ fv) by (rewrite field_get_run, Hf; reflexivity).
  destruct (print_field_status_run fv rest
              ((lg ++ [Send "READ:DEV:GRPZ:PSU:ACTN"; Send "READ:DEV:MB1.T1:TEMP:SIG:TEMP";
                       Sleep (1 # 10)]) ++ [Send "READ:DEV:GRPZ:PSU:SIG:FLD"])) as [text Hp].
  rewrite (bind_ok _ _ _ _ tt) by exact Hp.
  eexists. split; [|reflexivity].
  rewrite !commands_app. cbn [commands app]. rewrite <- !app_assoc. reflexivity.
Qed.

(** Any number of such iterations. *)
Lemma polls_go_on (polls : list poll) :
  forall (fuel : nat) (rest : list string) (lg : list event),
    forallb (quiet_poll tl) polls = true ->
    exists lg',
      commands lg' = (commands lg ++ polls_commands (List.length polls))%list /\
      ramp_poll (List.length polls + fuel) start target
        (mkInstrument tl (poll_replies polls ++ rest) lg) =
      ramp_poll fuel start target (mkInstrument tl rest lg').
Proof.
  induction polls as [|[[s t] f] polls IH]; intros fuel rest lg Hq.
  - exists lg. split; [simpl; rewrite app_nil_r|]; reflexivity.
  - cbn [forallb] in Hq. apply andb_true_iff in Hq as [Hq Hqs].
    destruct (poll_goes_on (List.length polls + fuel) s t f (poll_replies polls ++ rest) lg Hq)
      as (lg1 & Hc1 & Hrun1).
    destruct (IH fuel rest lg1 Hqs) as (lg2 & Hc2 & Hrun2).
    exists lg2. split.
    + rewrite Hc2, Hc1. cbn [List.length polls_commands]. rewrite <- !app_assoc. reflexivity.
    + cbn [List.length poll_replies Nat.add app]. rewrite Hrun1. exact Hrun2.
Qed.

End Quiet.

(** ** The supervised ramp *)

(** C1: heater ON, field 0.0, status CLAMP, target 1.0.  While the device
    answers TO SET with a temperature within the limit, and until it
    answers another status, the driver sends exactly: heater read, field
    read, target write, status read, HOLD write, TO SET write, then status,
    temperature and field reads per iteration, and a last status read; it
    then returns normally. *)
Theorem supervised_ramp_from_clamp {F : Format} (fuel : nat) (i : instrument)
    (heater field0 echo1 status0 echo2 echo3 : string) (polls : list poll)
    (final label : string) (rest : list string) :
  replies i =
    (heater :: field0 :: echo1 :: status0 :: echo2 :: echo3 ::
       poll_replies polls ++ final :: rest)%list ->
  _preparser heater = Ok "ON" ->
  _singleunit_parser field0 = Ok 0 ->
  ramp_status_decode status0 = Ok "CLAMP" ->
  forallb (quiet_poll (t_limit i)) polls = true ->
  ramp_status_decode final = Ok label -> String.eqb label "TO SET" = false ->
  (List.length polls < fuel)%nat ->
  exists i',
    set_field_and_ramp_blocking fuel 1 i = Some (Ok tt, i') /\
    commands (log i') =
      (commands (log i) ++
       ["READ:DEV:GRPZ:PSU:SIG:SWHT"; "READ:DEV:GRPZ:PSU:SIG:FLD";
        ("SET:DEV:GRPZ:PSU:SIG:FSET:" ++ str 1)%string; "READ:DEV:GRPZ:PSU:ACTN";
        "SET:DEV:GRPZ:PSU:ACTN:HOLD"; "SET:DEV:GRPZ:PSU:ACTN:RTOS"] ++
       polls_commands (List.length polls) ++ ["READ:DEV:GRPZ:PSU:ACTN"])%list /\
    replies i' = rest /\ t_limit i' = t_limit i.
Proof.
  destruct i as [tl rp lg]. cbn [replies t_limit log].
  intros -> Hh Hf Hs Hq Hfin Hl Hfuel.
  assert (Hapart : ~ 0 == 1) by (intros H; discriminate H).
  replace fuel with (List.length polls + S (fuel - S (List.length polls)))%nat by lia.
  unfold set_field_and_ramp_blocking.
  rewrite (bind_ok _ _ _ _ "ON") by (rewrite switch_heater_get_run, Hh; reflexivity).
  rewrite (bind_ok _ _ _ _ tt) by reflexivity.
  rewrite (bind_ok _ _ _ _ 0) by (rewrite field_get_run, Hf; reflexivity).
  rewrite (bind_ok _ _ _ _ tt) by (rewrite field_target_set_run; reflexivity).
  unfold ramp_to_target.
  erewrite (bind_ok (A := unit)); cycle 1.
  { rewrite (bind_ok _ _ _ _ "CLAMP") by (rewrite ramp_status_get_run, Hs; reflexivity).
    rewrite (bind_ok _ _ _ _ tt) by (cbn [String.eqb Ascii.eqb Bool.eqb]; apply ramp_status_hold_run).
    apply ramp_status_to_set_run. }
  match goal with
  | |- context [ramp_poll _ _ _ (mkInstrument _ _ ?l)] =>
      destruct (polls_go_on 0 1 tl Hapart polls
                  (S (fuel - S (List.length polls))) (final :: rest) l Hq)
        as (lg' & Hc & Hrun)
  end.
  rewrite Hrun, (poll_done _ _ _ _ _ _ _ _ Hfin Hl).
  eexists. split; [reflexivity|]. cbn [log replies t_limit].
  split; [|split; reflexivity].
  rewrite !commands_app, Hc, !commands_app. cbn [commands app].
  rewrite <- !app_assoc. reflexivity.
Qed.

Lemma supervised_ramp_from_clamp_witness :
  exists i',
    @set_field_and_ramp_blocking Show.one_place 3 1 (init device_from_clamp) = Some (Ok tt, i') /\
    commands (log i') =
      ["READ:DEV:GRPZ:PSU:SIG:SWHT"; "READ:DEV:GRPZ:PSU:SIG:FLD";
       "SET:DEV:GRPZ:PSU:SIG:FSET:1.0"; "READ:DEV:GRPZ:PSU:ACTN";
       "SET:DEV:GRPZ:PSU:ACTN:HOLD"; "SET:DEV:GRPZ:PSU:ACTN:RTOS";
       "READ:DEV:GRPZ:PSU:ACTN"; "READ:DEV:MB1.T1:TEMP:SIG:TEMP"; "READ:DEV:GRPZ:PSU:SIG:FLD";
       "READ:DEV:GRPZ:PSU:ACTN"; "READ:DEV:MB1.T1:TEMP:SIG:TEMP"; "READ:DEV:GRPZ:PSU:SIG:FLD";
       "READ:DEV:GRPZ:PSU:ACTN"] /\
    replies i' = [] /\ t_limit i' = 5.
Proof.
  apply (@supervised_ramp_from_clamp Show.one_place 3 (init device_from_clamp)
           "STAT:DEV:GRPZ:PSU:SIG:SWHT:ON" "STAT:DEV:GRPZ:PSU:SIG:FLD:0.0000T"
           "STAT:SET:DEV:GRPZ:PSU:SIG:FSET:1.0:VALID" "STAT:DEV:GRPZ:PSU:ACTN:CLMP"
           "STAT:SET:DEV:GRPZ:PSU:ACTN:HOLD:VALID" "STAT:SET:DEV:GRPZ:PSU:ACTN:RTOS:VALID"
           [("STAT:DEV:GRPZ:PSU:ACTN:RTOS", "STAT:DEV:MB1.T1:TEMP:SIG:TEMP:4.1000K",
             "STAT:DEV:GRPZ:PSU:SIG:FLD:0.5000T");
            ("STAT:DEV:GRPZ:PSU:ACTN:RTOS", "STAT:DEV:MB1.T1:TEMP:SIG:TEMP:5.0000K",
             "STAT:DEV:GRPZ:PSU:SIG:FLD:1.0000T")]
           "STAT:DEV:GRPZ:PSU:ACTN:HOLD" "HOLD" []);
    try reflexivity.
  simpl. lia.
Defined.

(** ** The temperature interlock *)

(** C2: when the temperature read in the loop exceeds the limit the driver
    writes HOLD before it raises and runs no further iteration, but the
    error it raises does not carry the temperature that was reached: the
    message is built from a new [self.temp()].  After a trip at 6 K under
    the limit of 5 K, a device that has cooled to 4 K by then gets
    "exceeded the safety limit ... Temperature reached = 4.0"; a device that
    does not answer the new read makes the driver raise VisaIOError in
    place of the interlock error. *)
Theorem interlock_reports_second_reading :
  _singleunit_parser "STAT:DEV:MB1.T1:TEMP:SIG:TEMP:6.0000K" = Ok 6 /\
  (exists i',
     @set_field_and_ramp_blocking Show.one_place 1 1 (init device_warm_then_cool) =
     Some (Raise (ValueError (@interlock_message Show.one_place 5 4)), i') /\
     commands (log i') =
       ["READ:DEV:GRPZ:PSU:SIG:SWHT"; "READ:DEV:GRPZ:PSU:SIG:FLD";
        "SET:DEV:GRPZ:PSU:SIG:FSET:1.0"; "READ:DEV:GRPZ:PSU:ACTN";
        "SET:DEV:GRPZ:PSU:ACTN:RTOS";
        "READ:DEV:GRPZ:PSU:ACTN"; "READ:DEV:MB1.T1:TEMP:SIG:TEMP";
        "SET:DEV:GRPZ:PSU:ACTN:HOLD"; "READ:DEV:MB1.T1:TEMP:SIG:TEMP"]) /\
  @interlock_message Show.one_place 5 4 <> @interlock_message Show.one_place 5 6 /\
  (exists i',
     @set_field_and_ramp_blocking Show.one_place 1 1 (init device_warm_then_silent) =
     Some (Raise VisaIOError, i') /\
     commands (log i') =
       ["READ:DEV:GRPZ:PSU:SIG:SWHT"; "READ:DEV:GRPZ:PSU:SIG:FLD";
        "SET:DEV:GRPZ:PSU:SIG:FSET:1.0"; "READ:DEV:GRPZ:PSU:ACTN";
        "SET:DEV:GRPZ:PSU:ACTN:RTOS";
        "READ:DEV:GRPZ:PSU:ACTN"; "READ:DEV:MB1.T1:TEMP:SIG:TEMP";
        "SET:DEV:GRPZ:PSU:ACTN:HOLD"; "READ:DEV:MB1.T1:TEMP:SIG:TEMP"]).
Proof.
  split; [reflexivity|].
  split; [eexists; split; vm_compute; reflexivity|].
  split; [intros H; discriminate H|].
  eexists; split; vm_compute; reflexivity.
Qed.

(** The run of a trip, after any number of iterations within the limit:
    the status and temperature reads, the HOLD write, one more temperature
    read, and the ValueError whose message is built from the limit and the
    value of that last read. *)
Lemma interlock_trip {F : Format} (fuel : nat) (start target : Q) (i : instrument)
    (polls : list poll) (s t echo t2 : string) (tv tv2 : Q) (rest : list string) :
  replies i = (poll_replies polls ++ s :: t :: echo :: t2 :: rest)%list ->
  forallb (quiet_poll (t_limit i)) polls = true ->
  polls = [] \/ ~ start == target ->
  ramp_status_decode s = Ok "TO SET" ->
  _singleunit_parser t = Ok tv -> t_limit i < tv ->
  _singleunit_parser t2 = Ok tv2 ->
  (List.length polls < fuel)%nat ->
  exists i',
    ramp_poll fuel start target i =
      Some (Raise (ValueError (interlock_message (t_limit i) tv2)), i') /\
    commands (log i') =
      (commands (log i) ++ polls_commands (List.length polls) ++
       ["READ:DEV:GRPZ:PSU:ACTN"; "READ:DEV:MB1.T1:TEMP:SIG:TEMP";
        "SET:DEV:GRPZ:PSU:ACTN:HOLD"; "READ:DEV:MB1.T1:TEMP:SIG:TEMP"])%list /\
    replies i' = rest /\ t_limit i' = t_limit i.
Proof.
  destruct i as [tl rp lg]. cbn [replies t_limit log].
  intros -> Hq Hapart Hs Ht Hlt Ht2 Hfuel.
  replace fuel with (List.length polls + S (fuel - S (List.length polls)))%nat by lia.
  assert (Hgo : exists lg',
             commands lg' = (commands lg ++ polls_commands (List.length polls))%list /\
             ramp_poll (List.length polls + S (fuel - S (List.length polls))) start target
               (mkInstrument tl (poll_replies polls ++ s :: t :: echo :: t2 :: rest) lg) =
             ramp_poll (S (fuel - S (List.length polls))) start target
               (mkInstrument tl (s :: t :: echo :: t2 :: rest) lg')).
  { destruct Hapart as [-> | Hapart].
    - exists lg. split; [simpl; rewrite app_nil_r|]; reflexivity.
    - apply (polls_go_on start target tl Hapart polls _ _ lg Hq). }
  destruct Hgo as (lg' & Hc & Hrun).
  rewrite Hrun, (poll_trip _ _ _ _ _ _ _ _ _ Hs Ht Hlt).
  rewrite (bind_ok _ _ _ _ tt) by apply ramp_status_hold_run.
  rewrite (bind_ok _ _ _ _ tl) by reflexivity.
  rewrite (bind_ok _ _ _ _ tv2) by (rewrite temp_get_run, Ht2; reflexivity).
  eexists. split; [reflexivity|]. cbn [log replies t_limit].
  split; [|split; reflexivity].
  rewrite !commands_app, Hc. cbn [commands app].
  rewrite <- !app_assoc. reflexivity.
Qed.

Lemma interlock_trip_witness :
  exists i',
    @ramp_poll Show.one_place 1 0 1
      (init ["STAT:DEV:GRPZ:PSU:ACTN:RTOS"; "STAT:DEV:MB1.T1:TEMP:SIG:TEMP:6.0000K";
             "STAT:SET:DEV:GRPZ:PSU:ACTN:HOLD:VALID"; "STAT:DEV:MB1.T1:TEMP:SIG:TEMP:4.0000K"]) =
      Some (Raise (ValueError (@interlock_message Show.one_place 5 4)), i') /\
    commands (log i') =
      ["READ:DEV:GRPZ:PSU:ACTN"; "READ:DEV:MB1.T1:TEMP:SIG:TEMP";
       "SET:DEV:GRPZ:PSU:ACTN:HOLD"; "READ:DEV:MB1.T1:TEMP:SIG:TEMP"] /\
    replies i' = [] /\ t_limit i' = 5.
Proof.
  apply (@interlock_trip Show.one_place 1 0 1
           (init ["STAT:DEV:GRPZ:PSU:ACTN:RTOS"; "STAT:DEV:MB1.T1:TEMP:SIG:TEMP:6.0000K";
                  "STAT:SET:DEV:GRPZ:PSU:ACTN:HOLD:VALID";
                  "STAT:DEV:MB1.T1:TEMP:SIG:TEMP:4.0000K"])
           [] "STAT:DEV:GRPZ:PSU:ACTN:RTOS" "STAT:DEV:MB1.T1:TEMP:SIG:TEMP:6.0000K"
           "STAT:SET:DEV:GRPZ:PSU:ACTN:HOLD:VALID" "STAT:DEV:MB1.T1:TEMP:SIG:TEMP:4.0000K"
           6 4 []);
    try reflexivity.
  - left. reflexivity.
  - simpl. lia.
Defined.

(** After a trip the driver raises, whatever the device answers next: HOLD
    is sent, and at most the temperature is read once more. *)
Lemma trip_raises {F : Format} (tl : Q) (rest : list string) (lg : list event) :
  exists e i' more,
    (ramp_status_set "HOLD" ;;
     limit' <- temp_limit_get ;;
     reached <- temp_get ;;
     raise (A := unit) (ValueError (interlock_message limit' reached)))
      (mkInstrument tl rest lg) = Some (Raise e, i') /\
    commands (log i') = (commands lg ++ "SET:DEV:GRPZ:PSU:ACTN:HOLD" :: more)%list /\
    (more = [] \/ more = ["READ:DEV:MB1.T1:TEMP:SIG:TEMP"]).
Proof.
  destruct rest as [|echo [|t2 rest]].
  - do 2 eexists. exists []. split; [|split; [|left; reflexivity]].
    + apply bind_raise, ramp_status_hold_timeout.
    + cbn [log]. rewrite commands_app. reflexivity.
  - do 2 eexists. exists ["READ:DEV:MB1.T1:TEMP:SIG:TEMP"].
    split; [|split; [|right; reflexivity]].
    + rewrite (bind_ok _ _ _ _ tt) by apply ramp_status_hold_run.
      rewrite (bind_ok _ _ _ _ tl) by reflexivity.
      apply bind_raise. reflexivity.
    + cbn [log]. rewrite !commands_app. cbn [commands app].
      rewrite <- app_assoc. reflexivity.
  - destruct (_singleunit_parser t2) as [tv2 | e2] eqn:Ht2;
      do 2 eexists; exists ["READ:DEV:MB1.T1:TEMP:SIG:TEMP"];
      (split; [|split; [|right; reflexivity]]).
    + rewrite (bind_ok _ _ _ _ tt) by apply ramp_status_hold_run.
      rewrite (bind_ok _ _ _ _ tl) by reflexivity.
      rewrite (bind_ok _ _ _ _ tv2) by (rewrite temp_get_run, Ht2; reflexivity).
      reflexivity.
    + cbn [log]. rewrite !commands_app. cbn [commands app].
      rewrite <- app_assoc. reflexivity.
    + rewrite (bind_ok _ _ _ _ tt) by apply ramp_status_hold_run.
      rewrite (bind_ok _ _ _ _ tl) by reflexivity.
      apply bind_raise. rewrite temp_get_run, Ht2. reflexivity.
    + cbn [log]. rewrite !commands_app. cbn [commands app].
      rewrite <- app_assoc. reflexivity.
Qed.

(** C3: in an iteration that reads TO SET and the temperature [tv], the
    interlock trips exactly when [tv] is strictly above the limit.  Above
    it, HOLD is the next command and the driver raises.  At or below it,
    the equal case included, the driver sleeps and reads the field without
    writing anything, and, the field reading and the progress fraction
    being defined, evaluates the loop again after exactly three reads. *)
Theorem interlock_strictly_above {F : Format} (fuel : nat) (start target : Q)
    (i : instrument) (s t : string) (tv : Q) (rest : list string) :
  replies i = s :: t :: rest ->
  ramp_status_decode s = Ok "TO SET" ->
  _singleunit_parser t = Ok tv ->
  (t_limit i < tv ->
   exists e i' more,
     ramp_poll (S fuel) start target i = Some (Raise e, i') /\
     commands (log i') =
       (commands (log i) ++
        ["READ:DEV:GRPZ:PSU:ACTN"; "READ:DEV:MB1.T1:TEMP:SIG:TEMP";
         "SET:DEV:GRPZ:PSU:ACTN:HOLD"] ++ more)%list /\
     (more = [] \/ more = ["READ:DEV:MB1.T1:TEMP:SIG:TEMP"])) /\
  (tv <= t_limit i ->
   ramp_poll (S fuel) start target i =
     (current <- field_get ;;
      _print_field_status start current target ;;
      ramp_poll fuel start target)
       (mkInstrument (t_limit i) rest
          (log i ++ [Send "READ:DEV:GRPZ:PSU:ACTN"; Send "READ:DEV:MB1.T1:TEMP:SIG:TEMP";
                     Sleep (1 # 10)])) /\
   forall (f : string) (fv : Q) (rest' : list string),
     rest = f :: rest' -> _singleunit_parser f = Ok fv -> ~ start == target ->
     exists i2,
       ramp_poll (S fuel) start target i = ramp_poll fuel start target i2 /\
       commands (log i2) = (commands (log i) ++ poll_commands)%list /\
       replies i2 = rest' /\ t_limit i2 = t_limit i).
Proof.
  destruct i as [tl rp lg]. cbn [replies t_limit log].
  intros -> Hs Ht. split.
  - intros Hlt. rewrite (poll_trip _ _ _ _ _ _ _ _ _ Hs Ht Hlt).
    destruct (trip_raises tl rest
                (lg ++ [Send "READ:DEV:GRPZ:PSU:ACTN"; Send "READ:DEV:MB1.T1:TEMP:SIG:TEMP"]))
      as (e & i' & more & Hrun & Hc & Hmore).
    exists e, i', more. split; [exact Hrun|]. split; [|exact Hmore].
    rewrite Hc, commands_app. cbn [commands app]. rewrite <- app_assoc. reflexivity.
  - intros Hle. split; [apply (poll_safe _ _ _ _ _ _ _ _ _ Hs Ht Hle)|].
    intros f fv rest' -> Hf Hapart.
    rewrite (poll_safe _ _ _ _ _ _ _ _ _ Hs Ht Hle).
    rewrite (bind_ok _ _ _ _ fv) by (rewrite field_get_run, Hf; reflexivity).
    destruct (print_field_status_run start target tl Hapart fv rest'
                ((lg ++ [Send "READ:DEV:GRPZ:PSU:ACTN"; Send "READ:DEV:MB1.T1:TEMP:SIG:TEMP";
                         Sleep (1 # 10)]) ++ [Send "READ:DEV:GRPZ:PSU:SIG:FLD"]))
      as [text Hp].
    rewrite (bind_ok _ _ _ _ tt) by exact Hp.
    eexists. split; [reflexivity|]. cbn [log replies t_limit].
    split; [|split; reflexivity].
    rewrite !commands_app. cbn [commands app]. rewrite <- !app_assoc. reflexivity.
Qed.

Lemma interlock_strictly_above_witness :
  (exists i2,
     @ramp_poll Show.one_place 2 0 1
       (init ["STAT:DEV:GRPZ:PSU:ACTN:RTOS"; "STAT:DEV:MB1.T1:TEMP:SIG:TEMP:5.0000K";
              "STAT:DEV:GRPZ:PSU:SIG:FLD:0.5000T"; "STAT:DEV:GRPZ:PSU:ACTN:HOLD"]) =
     @ramp_poll Show.one_place 1 0 1 i2 /\
     commands (log i2) = poll_commands /\
     replies i2 = ["STAT:DEV:GRPZ:PSU:ACTN:HOLD"] /\ t_limit i2 = 5) /\
  (exists e i' more,
     @ramp_poll Show.one_place 2 0 1
       (init ["STAT:DEV:GRPZ:PSU:ACTN:RTOS"; "STAT:DEV:MB1.T1:TEMP:SIG:TEMP:5.0001K"]) =
     Some (Raise e, i') /\
     commands (log i') =
       (["READ:DEV:GRPZ:PSU:ACTN"; "READ:DEV:MB1.T1:TEMP:SIG:TEMP";
         "SET:DEV:GRPZ:PSU:ACTN:HOLD"] ++ more)%list /\
     (more = [] \/ more = ["READ:DEV:MB1.T1:TEMP:SIG:TEMP"])).
Proof.
  split.
  - apply (proj2 (proj2 (@interlock_strictly_above Show.one_place 1 0 1
             (init ["STAT:DEV:GRPZ:PSU:ACTN:RTOS"; "STAT:DEV:MB1.T1:TEMP:SIG:TEMP:5.0000K";
                    "STAT:DEV:GRPZ:PSU:SIG:FLD:0.5000T"; "STAT:DEV:GRPZ:PSU:ACTN:HOLD"])
             "STAT:DEV:GRPZ:PSU:ACTN:RTOS" "STAT:DEV:MB1.T1:TEMP:SIG:TEMP:5.0000K" 5
             ["STAT:DEV:GRPZ:PSU:SIG:FLD:0.5000T"; "STAT:DEV:GRPZ:PSU:ACTN:HOLD"]
             eq_refl eq_refl eq_refl) (Qle_refl 5))
           "STAT:DEV:GRPZ:PSU:SIG:FLD:0.5000T" (1 # 2) ["STAT:DEV:GRPZ:PSU:ACTN:HOLD"]);
      [reflexivity | reflexivity | intros H; discriminate H].
  - apply (proj1 (@interlock_strictly_above Show.one_place 1 0 1
             (init ["STAT:DEV:GRPZ:PSU:ACTN:RTOS"; "STAT:DEV:MB1.T1:TEMP:SIG:TEMP:5.0001K"])
             "STAT:DEV:GRPZ:PSU:ACTN:RTOS" "STAT:DEV:MB1.T1:TEMP:SIG:TEMP:5.0001K"
             (50001 # 10000) [] eq_refl eq_refl eq_refl)).
    reflexivity.
Defined.

(** ** The heater precondition *)

(** C4: with the switch heater reading OFF the ramp never starts and no
    write is sent, for every target; but what the driver raises is the
    TypeError of [raise print(...)], after printing the text, not an error
    of its own for the heater. *)
Theorem heater_off_raises_type_error {F : Format} (fuel : nat) (target : Q)
    (i : instrument) (heater : string) (rest : list string) :
  replies i = heater :: rest ->
  _preparser heater = Ok "OFF" ->
  set_field_and_ramp_blocking fuel target i =
  Some (Raise (TypeError "exceptions must derive from BaseException"),
        mkInstrument (t_limit i) rest
          (log i ++ [Send "READ:DEV:GRPZ:PSU:SIG:SWHT"; Print heater_off_text])).
Proof.
  destruct i as [tl rp lg]. cbn [replies t_limit log]. intros -> Hh.
  unfold set_field_and_ramp_blocking.
  rewrite (bind_ok _ _ _ _ "OFF") by (rewrite switch_heater_get_run, Hh; reflexivity).
  cbn [String.eqb Ascii.eqb Bool.eqb]. apply bind_raise.
  unfold raise_print. rewrite (bind_ok _ _ _ _ tt) by reflexivity.
  cbn [log replies t_limit]. flatten_log. reflexivity.
Qed.

Lemma heater_off_raises_type_error_witness :
  @set_field_and_ramp_blocking Show.one_place 5 1
    (init ["STAT:DEV:GRPZ:PSU:SIG:SWHT:OFF"; "STAT:DEV:GRPZ:PSU:SIG:FLD:0.0000T"]) =
  Some (Raise (TypeError "exceptions must derive from BaseException"),
        mkInstrument 5 ["STAT:DEV:GRPZ:PSU:SIG:FLD:0.0000T"]
          [Send "READ:DEV:GRPZ:PSU:SIG:SWHT"; Print heater_off_text]).
Proof.
  apply (@heater_off_raises_type_error Show.one_place 5 1
           (init ["STAT:DEV:GRPZ:PSU:SIG:SWHT:OFF"; "STAT:DEV:GRPZ:PSU:SIG:FLD:0.0000T"])
           "STAT:DEV:GRPZ:PSU:SIG:SWHT:OFF" ["STAT:DEV:GRPZ:PSU:SIG:FLD:0.0000T"]);
    reflexivity.
Defined.

(** C10: when the heater reads ON, and whenever it reads anything but OFF,
    [switch_heater_on_and_wait] sends the heater read and nothing else: no
    write, no wait, the limit untouched.  When it reads OFF, and only then,
    it writes ON and waits 600 seconds. *)
Theorem switch_heater_on_and_wait_frame (i : instrument) (heater tok : string)
    (rest : list string) :
  replies i = heater :: rest ->
  _preparser heater = Ok tok ->
  (tok = "ON" \/ tok <> "OFF" ->
   switch_heater_on_and_wait i =
   Some (Ok tt, mkInstrument (t_limit i) rest (log i ++ [Send "READ:DEV:GRPZ:PSU:SIG:SWHT"]))) /\
  (tok = "OFF" ->
   forall (echo : string) (rest' : list string), rest = echo :: rest' ->
     switch_heater_on_and_wait i =
     Some (Ok tt, mkInstrument (t_limit i) rest'
                    (log i ++ [Send "READ:DEV:GRPZ:PSU:SIG:SWHT";
                               Send "SET:DEV:GRPZ:PSU:SIG:SWHT:ON"; Sleep 600]))).
Proof.
  destruct i as [tl rp lg]. cbn [replies t_limit log]. intros -> Hh.
  unfold switch_heater_on_and_wait.
  rewrite (bind_ok _ _ _ _ tok) by (rewrite switch_heater_get_run, Hh; reflexivity).
  split.
  - intros Hon. assert (Hne : String.eqb tok "OFF" = false).
    { apply String.eqb_neq. destruct Hon as [-> | Hne]; [discriminate|exact Hne]. }
    rewrite Hne. reflexivity.
  - intros -> echo rest' ->. cbn [String.eqb Ascii.eqb Bool.eqb].
    rewrite (bind_ok _ _ _ _ tt) by apply switch_heater_set_run.
    unfold sleep, emit. cbn [log replies t_limit]. flatten_log. reflexivity.
Qed.

Lemma switch_heater_on_and_wait_frame_witness :
  switch_heater_on_and_wait (init ["STAT:DEV:GRPZ:PSU:SIG:SWHT:ON"; "next"]) =
    Some (Ok tt, mkInstrument 5 ["next"] [Send "READ:DEV:GRPZ:PSU:SIG:SWHT"]) /\
  switch_heater_on_and_wait
    (init ["STAT:DEV:GRPZ:PSU:SIG:SWHT:OFF"; "STAT:SET:DEV:GRPZ:PSU:SIG:SWHT:ON:VALID"; "next"]) =
    Some (Ok tt, mkInstrument 5 ["next"]
                   [Send "READ:DEV:GRPZ:PSU:SIG:SWHT"; Send "SET:DEV:GRPZ:PSU:SIG:SWHT:ON";
                    Sleep 600]).
Proof.
  split.
  - apply (proj1 (switch_heater_on_and_wait_frame
                    (init ["STAT:DEV:GRPZ:PSU:SIG:SWHT:ON"; "next"])
                    "STAT:DEV:GRPZ:PSU:SIG:SWHT:ON" "ON" ["next"] eq_refl eq_refl)).
    left. reflexivity.
  - apply (proj2 (switch_heater_on_and_wait_frame
                    (init ["STAT:DEV:GRPZ:PSU:SIG:SWHT:OFF";
                           "STAT:SET:DEV:GRPZ:PSU:SIG:SWHT:ON:VALID"; "next"])
                    "STAT:DEV:GRPZ:PSU:SIG:SWHT:OFF" "OFF"
                    ["STAT:SET:DEV:GRPZ:PSU:SIG:SWHT:ON:VALID"; "next"] eq_refl eq_refl)
             eq_refl "STAT:SET:DEV:GRPZ:PSU:SIG:SWHT:ON:VALID" ["next"] eq_refl).
Defined.

(** ** Writing the field *)

(** C6: writing a field value outside [-7, 7] fails with the validation
    error, which carries the value and the range, and leaves the instrument
    as it was: nothing is sent. *)
Theorem field_write_out_of_range {F : Format} (fuel : nat) (x : Q) (i : instrument) :
  x < -7 \/ 7 < x ->
  field_set fuel x i = Some (Raise (ValidationError x (-7) 7), i).
Proof.
  intros Hout. unfold field_set.
  assert (Hv : numbers_valid field_min field_max x = false).
  { unfold numbers_valid. apply andb_false_iff.
    destruct Hout as [Hlo | Hhi]; [left | right];
      apply not_true_is_false; intros H; apply Qle_bool_iff in H;
      [exact (Qlt_not_le _ _ Hlo H) | exact (Qlt_not_le _ _ Hhi H)]. }
  rewrite Hv. reflexivity.
Qed.

Lemma field_write_out_of_range_witness :
  @field_set Show.one_place 5 8 (init device_from_clamp) =
  Some (Raise (ValidationError 8 (-7) 7), init device_from_clamp).
Proof.
  apply (@field_write_out_of_range Show.one_place 5 8 (init device_from_clamp)).
  right. reflexivity.
Defined.

Example field_write_in_range :
  numbers_valid field_min field_max (-7) = true /\ numbers_valid field_min field_max 7 = true /\
  @field_set Show.one_place 3 1 (init device_from_clamp) =
  @set_field_and_ramp_blocking Show.one_place 3 1 (init device_from_clamp).
Proof. repeat split; reflexivity. Qed.

(** * Further properties of the driver *)

(** ** The parsers on any reply *)

Lemma drop_last_short (n : nat) (s : string) :
  (String.length s <= n)%nat -> Py.drop_last n s = "".
Proof.
  intros H. unfold Py.drop_last.
  replace (String.length s - n)%nat with 0%nat by lia.
  destruct s; reflexivity.
Qed.

Lemma last_segment_of (reply seg : string) :
  reply = seg \/ (exists path, reply = path ++ ":" ++ seg) ->
  Py.free_of ":" seg = true ->
  Py.index_last (Py.split ":" reply) = Ok seg.
Proof.
  intros [-> | [path ->]] Hseg.
  - apply last_segment_free, Hseg.
  - apply (last_segment_app ":" path seg Hseg).
Qed.

(** The echoed path of a reply has no influence: each parser gives on
    [path:seg] what it gives on [seg] alone, when [seg] holds no colon. *)
Theorem parsers_ignore_path (path seg : string) :
  Py.free_of ":" seg = true ->
  _preparser (path ++ ":" ++ seg) = _preparser seg /\
  _singleunit_parser (path ++ ":" ++ seg) = _singleunit_parser seg /\
  _rate_parser (path ++ ":" ++ seg) = _rate_parser seg.
Proof.
  intros Hseg. unfold _preparser, _singleunit_parser, _rate_parser.
  rewrite (last_segment_of (path ++ ":" ++ seg) seg) by (eauto).
  rewrite (last_segment_of seg seg) by auto.
  repeat split.
Qed.

Lemma parsers_ignore_path_witness :
  _preparser ("STAT:DEV:GRPZ:PSU:ACTN" ++ ":" ++ "RTOS") = _preparser "RTOS" /\
  _singleunit_parser ("STAT:DEV:GRPZ:PSU:ACTN" ++ ":" ++ "RTOS") = _singleunit_parser "RTOS" /\
  _rate_parser ("STAT:DEV:GRPZ:PSU:ACTN" ++ ":" ++ "RTOS") = _rate_parser "RTOS".
Proof. apply (parsers_ignore_path "STAT:DEV:GRPZ:PSU:ACTN" "RTOS"). reflexivity. Defined.

(** A reply whose last segment is too short to hold a number and its unit
    makes the numeric parsers raise ValueError: at most one character for
    [_singleunit_parser], at most three for [_rate_parser].  The empty
    reply is one such. *)
Theorem numeric_parsers_short_segment (reply seg : string) :
  reply = seg \/ (exists path, reply = path ++ ":" ++ seg) ->
  Py.free_of ":" seg = true ->
  ((String.length seg <= 1)%nat -> exists msg, _singleunit_parser reply = Raise (ValueError msg)) /\
  ((String.length seg <= 3)%nat -> exists msg, _rate_parser reply = Raise (ValueError msg)).
Proof.
  intros Hshape Hseg. unfold _singleunit_parser, _rate_parser.
  rewrite (last_segment_of reply seg Hshape Hseg).
  split; intros Hlen; rewrite (drop_last_short _ _ Hlen); eexists; reflexivity.
Qed.

Lemma numeric_parsers_short_segment_witness :
  (exists msg, _singleunit_parser "" = Raise (ValueError msg)) /\
  (exists msg, _rate_parser "STAT:DEV:GRPZ:PSU:SIG:RFST:N/A" = Raise (ValueError msg)).
Proof.
  split.
  - apply (proj1 (numeric_parsers_short_segment "" "" (or_introl eq_refl) eq_refl)).
    simpl. lia.
  - apply (proj2 (numeric_parsers_short_segment "STAT:DEV:GRPZ:PSU:SIG:RFST:N/A" "N/A"
                    (or_intror (ex_intro _ "STAT:DEV:GRPZ:PSU:SIG:RFST" eq_refl)) eq_refl)).
    simpl. lia.
Defined.

(** ** Reading a numeric parameter *)

Lemma singleunit_value (path num unit : string) :
  Py.is_decimal num = true -> String.length unit = 1%nat -> Py.free_of ":" unit = true ->
  _singleunit_parser (path ++ ":" ++ num ++ unit) = Py.float num.
Proof.
  intros Hnum Hlen Hunit.
  destruct (magnitude_segment 1 num unit Hnum Hunit Hlen (path ++ ":" ++ num ++ unit))
    as [Hlast Hdrop]; [right; exists path; reflexivity|].
  unfold _singleunit_parser. rewrite Hlast, Hdrop. reflexivity.
Qed.

Lemma rate_value (path num unit : string) :
  Py.is_decimal num = true -> String.length unit = 3%nat -> Py.free_of ":" unit = true ->
  _rate_parser (path ++ ":" ++ num ++ unit) = Py.float num.
Proof.
  intros Hnum Hlen Hunit.
  destruct (magnitude_segment 3 num unit Hnum Hunit Hlen (path ++ ":" ++ num ++ unit))
    as [Hlast Hdrop]; [right; exists path; reflexivity|].
  unfold _rate_parser. rewrite Hlast, Hdrop. reflexivity.
Qed.

(** Every numeric parameter, read on a device that answers [path:number]
    followed by a unit of the length its parser drops, sends its one
    command, takes that one reply and returns the number; when the device
    does not answer, the command has been sent and VisaIOError is raised. *)
Theorem numeric_read (cmd : string) (n : nat) (get : M Q) :
  In (cmd, n, get) numeric_reads ->
  (forall (tl : Q) (path num unit : string) (rs : list string) (lg : list event),
     Py.is_decimal num = true -> String.length unit = n -> Py.free_of ":" unit = true ->
     exists q,
       Py.float num = Ok q /\
       get (mkInstrument tl ((path ++ ":" ++ num ++ unit) :: rs) lg) =
       Some (Ok q, mkInstrument tl rs (lg ++ [Send cmd]))) /\
  (forall (tl : Q) (lg : list event),
     get (mkInstrument tl [] lg) =
     Some (Raise VisaIOError, mkInstrument tl [] (lg ++ [Send cmd]))).
Proof.
  intros Hin. split.
  - intros tl path num unit rs lg Hnum Hlen Hunit.
    destruct (is_decimal_value _ Hnum) as [q Hq]. exists q. split; [exact Hq|].
    rewrite <- Hq.
    cbn [numeric_reads In] in Hin.
    repeat (destruct Hin as [Hin | Hin];
            [injection Hin as <- <- <-;
             first [ rewrite <- (singleunit_value path num unit Hnum Hlen Hunit)
                   | rewrite <- (rate_value path num unit Hnum Hlen Hunit) ];
             reflexivity |]).
    contradiction.
  - intros tl lg. cbn [numeric_reads In] in Hin.
    repeat (destruct Hin as [Hin | Hin]; [injection Hin as <- <- <-; reflexivity |]).
    contradiction.
Qed.

Lemma numeric_read_witness :
  exists q,
    Py.float "0.0500" = Ok q /\
    field_ramp_rate_get
      (mkInstrument 5 (("STAT:DEV:GRPZ:PSU:SIG:RFST" ++ ":" ++ "0.0500" ++ "T/m") :: []) []) =
    Some (Ok q, mkInstrument 5 [] ([] ++ [Send "READ:DEV:GRPZ:PSU:SIG:RFST"])).
Proof.
  apply (proj1 (numeric_read "READ:DEV:GRPZ:PSU:SIG:RFST" 3 field_ramp_rate_get
                  (or_intror (or_intror (or_intror (or_intror (or_intror (or_intror
                     (or_introl eq_refl))))))))
           5 "STAT:DEV:GRPZ:PSU:SIG:RFST" "0.0500" "T/m" [] []);
    reflexivity.
Defined.

(** ** The ramp status and its value mapping *)

Lemma val_mapping_entries (label tok : string) :
  lookup label val_mapping = Some tok ->
  (label = "HOLD" /\ tok = "HOLD") \/ (label = "TO SET" /\ tok = "RTOS") \/
  (label = "CLAMP" /\ tok = "CLMP") \/ (label = "TO ZERO" /\ tok = "RTOZ").
Proof.
  unfold val_mapping. cbn [lookup].
  destruct (String.eqb_spec label "HOLD") as [-> | _];
    [intros H; injection H as <-; auto|].
  destruct (String.eqb_spec label "TO SET") as [-> | _];
    [intros H; injection H as <-; auto|].
  destruct (String.eqb_spec label "CLAMP") as [-> | _];
    [intros H; injection H as <-; auto|].
  destruct (String.eqb_spec label "TO ZERO") as [-> | _];
    [intros H; injection H as <-; auto 6|].
  discriminate.
Qed.

Lemma inverse_val_mapping_entries (label tok : string) :
  lookup tok (inverse val_mapping) = Some label ->
  (label = "HOLD" /\ tok = "HOLD") \/ (label = "TO SET" /\ tok = "RTOS") \/
  (label = "CLAMP" /\ tok = "CLMP") \/ (label = "TO ZERO" /\ tok = "RTOZ").
Proof.
  unfold val_mapping. cbn [lookup inverse map fst snd].
  destruct (String.eqb_spec tok "HOLD") as [-> | _];
    [intros H; injection H as <-; auto|].
  destruct (String.eqb_spec tok "RTOS") as [-> | _];
    [intros H; injection H as <-; auto|].
  destruct (String.eqb_spec tok "CLMP") as [-> | _];
    [intros H; injection H as <-; auto|].
  destruct (String.eqb_spec tok "RTOZ") as [-> | _];
    [intros H; injection H as <-; auto 6|].
  discriminate.
Qed.

(** The value mapping of [ramp_status] is one to one: a label is written
    as a token exactly when that token is read back as that label. *)
Theorem val_mapping_one_to_one (label tok : string) :
  lookup label val_mapping = Some tok <-> lookup tok (inverse val_mapping) = Some label.
Proof.
  split; intros H.
  - apply val_mapping_entries in H.
    destruct H as [[-> ->] | [[-> ->] | [[-> ->] | [-> ->]]]]; reflexivity.
  - apply inverse_val_mapping_entries in H.
    destruct H as [[-> ->] | [[-> ->] | [[-> ->] | [-> ->]]]]; reflexivity.
Qed.

Lemma val_mapping_one_to_one_witness :
  lookup "TO SET" val_mapping = Some "RTOS" /\
  lookup "RTOS" (inverse val_mapping) = Some "TO SET".
Proof.
  split; [reflexivity|].
  apply (proj1 (val_mapping_one_to_one "TO SET" "RTOS")). reflexivity.
Defined.

(** Writing a label of the mapping and reading the status back, on a device
    that acknowledges the write and then reports the token it was sent,
    returns the label written, after exactly the write and the read. *)
Theorem ramp_status_round_trip (label tok path echo : string) (tl : Q)
    (rs : list string) (lg : list event) :
  lookup label val_mapping = Some tok ->
  (ramp_status_set label ;; ramp_status_get)
    (mkInstrument tl (echo :: (path ++ ":" ++ tok) :: rs) lg) =
  Some (Ok label,
        mkInstrument tl rs
          (lg ++ [Send ("SET:DEV:GRPZ:PSU:ACTN:" ++ tok); Send "READ:DEV:GRPZ:PSU:ACTN"])).
Proof.
  intros H. apply val_mapping_entries in H.
  assert (Hdec : ramp_status_decode (path ++ ":" ++ tok) = Ok label).
  { unfold ramp_status_decode, _preparser.
    destruct H as [[-> ->] | [[-> ->] | [[-> ->] | [-> ->]]]];
      [ rewrite (last_segment_of (path ++ ":" ++ "HOLD") "HOLD")
      | rewrite (last_segment_of (path ++ ":" ++ "RTOS") "RTOS")
      | rewrite (last_segment_of (path ++ ":" ++ "CLMP") "CLMP")
      | rewrite (last_segment_of (path ++ ":" ++ "RTOZ") "RTOZ") ];
      first [reflexivity | right; exists path; reflexivity]. }
  assert (Hset : ramp_status_set label (mkInstrument tl (echo :: (path ++ ":" ++ tok) :: rs) lg) =
                 Some (Ok tt, mkInstrument tl ((path ++ ":" ++ tok) :: rs)
                                (lg ++ [Send ("SET:DEV:GRPZ:PSU:ACTN:" ++ tok)]))).
  { destruct H as [[-> ->] | [[-> ->] | [[-> ->] | [-> ->]]]]; reflexivity. }
  rewrite (bind_ok _ _ _ _ tt Hset), ramp_status_get_run, Hdec.
  flatten_log. reflexivity.
Qed.

Lemma ramp_status_round_trip_witness :
  (ramp_status_set "TO ZERO" ;; ramp_status_get)
    (mkInstrument 5 ["STAT:SET:DEV:GRPZ:PSU:ACTN:RTOZ:VALID";
                     "STAT:DEV:GRPZ:PSU:ACTN" ++ ":" ++ "RTOZ"] []) =
  Some (Ok "TO ZERO",
        mkInstrument 5 []
          ([] ++ [Send ("SET:DEV:GRPZ:PSU:ACTN:" ++ "RTOZ"); Send "READ:DEV:GRPZ:PSU:ACTN"])).
Proof.
  apply (ramp_status_round_trip "TO ZERO" "RTOZ" "STAT:DEV:GRPZ:PSU:ACTN"
           "STAT:SET:DEV:GRPZ:PSU:ACTN:RTOZ:VALID" 5 [] []).
  reflexivity.
Defined.

(** ** The ramp-mode transition *)

(** [ramp_to_target] reads the status once; from CLAMP it writes HOLD and
    then TO SET, from any other status it writes TO SET alone (also when
    the status already is TO SET). *)
Theorem ramp_to_target_commands (i : instrument) (s label : string) (rest : list string) :
  replies i = s :: rest ->
  ramp_status_decode s = Ok label ->
  (label = "CLAMP" ->
   forall (echo1 echo2 : string) (rest' : list string), rest = echo1 :: echo2 :: rest' ->
     ramp_to_target i =
     Some (Ok tt, mkInstrument (t_limit i) rest'
                    (log i ++ [Send "READ:DEV:GRPZ:PSU:ACTN"; Send "SET:DEV:GRPZ:PSU:ACTN:HOLD";
                               Send "SET:DEV:GRPZ:PSU:ACTN:RTOS"]))) /\
  (label <> "CLAMP" ->
   forall (echo : string) (rest' : list string), rest = echo :: rest' ->
     ramp_to_target i =
     Some (Ok tt, mkInstrument (t_limit i) rest'
                    (log i ++ [Send "READ:DEV:GRPZ:PSU:ACTN"; Send "SET:DEV:GRPZ:PSU:ACTN:RTOS"]))).
Proof.
  destruct i as [tl rp lg]. cbn [replies t_limit log]. intros -> Hs.
  unfold ramp_to_target.
  rewrite (bind_ok _ _ _ _ label) by (rewrite ramp_status_get_run, Hs; reflexivity).
  split.
  - intros -> echo1 echo2 rest' ->. cbn [String.eqb Ascii.eqb Bool.eqb].
    rewrite (bind_ok _ _ _ _ tt) by apply ramp_status_hold_run.
    rewrite ramp_status_to_set_run. flatten_log. reflexivity.
  - intros Hne echo rest' ->. apply String.eqb_neq in Hne. rewrite Hne.
    rewrite (bind_ok _ _ _ _ tt) by reflexivity.
    rewrite ramp_status_to_set_run. flatten_log. reflexivity.
Qed.

Lemma ramp_to_target_commands_witness :
  ramp_to_target (init ["STAT:DEV:GRPZ:PSU:ACTN:CLMP"; "ack"; "ack"]) =
    Some (Ok tt, mkInstrument 5 []
                   [Send "READ:DEV:GRPZ:PSU:ACTN"; Send "SET:DEV:GRPZ:PSU:ACTN:HOLD";
                    Send "SET:DEV:GRPZ:PSU:ACTN:RTOS"]) /\
  ramp_to_target (init ["STAT:DEV:GRPZ:PSU:ACTN:RTOS"; "ack"]) =
    Some (Ok tt, mkInstrument 5 []
                   [Send "READ:DEV:GRPZ:PSU:ACTN"; Send "SET:DEV:GRPZ:PSU:ACTN:RTOS"]).
Proof.
  split.
  - apply (proj1 (ramp_to_target_commands (init ["STAT:DEV:GRPZ:PSU:ACTN:CLMP"; "ack"; "ack"])
                    "STAT:DEV:GRPZ:PSU:ACTN:CLMP" "CLAMP" ["ack"; "ack"] eq_refl eq_refl)
             eq_refl "ack" "ack" [] eq_refl).
  - refine (proj2 (ramp_to_target_commands (init ["STAT:DEV:GRPZ:PSU:ACTN:RTOS"; "ack"])
                     "STAT:DEV:GRPZ:PSU:ACTN:RTOS" "TO SET" ["ack"] eq_refl eq_refl)
              _ "ack" [] eq_refl).
    intros H. discriminate H.
Defined.

(** ** The progress report *)

Lemma Qabs_pos (b : Q) : ~ b == 0 -> 0 < Qabs b.
Proof.
  intros Hb. destruct (Qlt_le_dec 0 (Qabs b)) as [H | H]; [exact H|].
  exfalso. apply Hb. apply Qabs_Qle_condition in H. destruct H as [H1 H2].
  apply Qle_antisym; [exact H2 | exact H1].
Qed.

Lemma Qabs_div (a b : Q) : Qabs (a / b) == Qabs a / Qabs b.
Proof. unfold Qdiv. rewrite Qabs_Qmult, Qabs_Qinv. reflexivity. Qed.

Lemma fraction_below_one (a b : Q) :
  ~ b == 0 -> Qabs a < Qabs b -> Qabs (a / b) < 1.
Proof.
  intros Hb H. rewrite Qabs_div. apply Qlt_shift_div_r; [apply Qabs_pos, Hb|].
  rewrite Qmult_1_l. exact H.
Qed.

Lemma fraction_at_least_one (a b : Q) :
  ~ b == 0 -> Qabs b <= Qabs a -> 1 <= Qabs (a / b).
Proof.
  intros Hb H. rewrite Qabs_div. apply Qle_shift_div_l; [apply Qabs_pos, Hb|].
  rewrite Qmult_1_l. exact H.
Qed.

(** [_print_field_status] sends nothing.  For [start] different from
    [stop] it writes one line to the console: the percentage while the field
    has moved less than the whole way, the waiting message once it has moved
    as far as, or further than, the distance to the target.  For [start]
    equal to [stop] it raises ZeroDivisionError before writing anything. *)
Theorem print_field_status_report {F : Format} (start current stop : Q) (i : instrument) :
  (~ start == stop ->
   (Qabs (start - current) < Qabs (start - stop) ->
    _print_field_status start current stop i =
    Some (Ok tt,
          mkInstrument (t_limit i) (replies i)
            (log i ++
             [TqdmWrite ("Magnetic field ramp " ++
                         format_1f (Qabs ((start - current) / (start - stop)) * 100) ++
                         "% done" ++ spaces30) carriage_return]))) /\
   (Qabs (start - stop) <= Qabs (start - current) ->
    _print_field_status start current stop i =
    Some (Ok tt,
          mkInstrument (t_limit i) (replies i)
            (log i ++
             [TqdmWrite ("Waiting for field stabilization" ++ spaces30) carriage_return])))) /\
  (start == stop -> _print_field_status start current stop i = Some (Raise ZeroDivisionError, i)).
Proof.
  destruct i as [tl rp lg]. cbn [t_limit replies log]. split.
  - intros Hne.
    assert (Hd : ~ start - stop == 0)
      by (intros H0; apply Hne; apply Qeq_bool_difference, Qeq_bool_iff, H0).
    unfold _print_field_status.
    rewrite (bind_ok _ _ _ _ (Qabs ((start - current) / (start - stop))))
      by (unfold lift; rewrite (progress_defined _ _ _ Hne); reflexivity).
    split; intros H; destruct (Qlt_le_dec (Qabs ((start - current) / (start - stop))) 1)
      as [Hlt | Hge].
    + reflexivity.
    + exfalso. apply (Qlt_not_le _ _ (fraction_below_one _ _ Hd H) Hge).
    + exfalso. apply (Qlt_not_le _ _ Hlt (fraction_at_least_one _ _ Hd H)).
    + reflexivity.
  - intros Heq. apply bind_raise. unfold lift, progress.
    apply Qeq_bool_difference in Heq. rewrite Heq. reflexivity.
Qed.

Lemma print_field_status_report_witness :
  @_print_field_status Show.one_place 0 (1 # 4) 1 (init []) =
    Some (Ok tt,
          mkInstrument 5 []
            [TqdmWrite "Magnetic field ramp 25.0% done                              "
               carriage_return]) /\
  @_print_field_status Show.one_place 0 (3 # 2) 1 (init []) =
    Some (Ok tt,
          mkInstrument 5 []
            [TqdmWrite "Waiting for field stabilization                              "
               carriage_return]) /\
  @_print_field_status Show.one_place 1 0 1 (init []) = Some (Raise ZeroDivisionError, init []).
Proof.
  split; [|split].
  - apply (proj1 (proj1 (@print_field_status_report Show.one_place 0 (1 # 4) 1 (init []))
                    (fun H => Q_apart_0_1 (Qeq_sym _ _ H)))).
    reflexivity.
  - apply (proj2 (proj1 (@print_field_status_report Show.one_place 0 (3 # 2) 1 (init []))
                    (fun H => Q_apart_0_1 (Qeq_sym _ _ H)))).
    discriminate.
  - apply (proj2 (@print_field_status_report Show.one_place 1 0 1 (init []))).
    reflexivity.
Defined.

(** ** The supervised ramp from any state *)

(** Up to the polling loop: the heater reads anything but OFF, the field
    and the status are read, the target and the ramp mode are written. *)
Lemma ramp_preamble {F : Format} (fuel : nat) (target start tl : Q) (lg : list event)
    (heater tok field0 echo1 status0 label0 : string) (acks rest : list string) :
  _preparser heater = Ok tok -> tok <> "OFF" ->
  _singleunit_parser field0 = Ok start ->
  ramp_status_decode status0 = Ok label0 ->
  List.length acks = (if String.eqb label0 "CLAMP" then 2 else 1)%nat ->
  exists lg',
    commands lg' =
      (commands lg ++
       ["READ:DEV:GRPZ:PSU:SIG:SWHT"; "READ:DEV:GRPZ:PSU:SIG:FLD";
        ("SET:DEV:GRPZ:PSU:SIG:FSET:" ++ str target)%string; "READ:DEV:GRPZ:PSU:ACTN"] ++
       (if String.eqb label0 "CLAMP" then ["SET:DEV:GRPZ:PSU:ACTN:HOLD"] else []) ++
       ["SET:DEV:GRPZ:PSU:ACTN:RTOS"])%list /\
    set_field_and_ramp_blocking fuel target
      (mkInstrument tl (heater :: field0 :: echo1 :: status0 :: acks ++ rest) lg) =
    ramp_poll fuel start target (mkInstrument tl rest lg').
Proof.
  intros Hh Hoff Hf Hs Hacks. apply String.eqb_neq in Hoff.
  unfold set_field_and_ramp_blocking.
  rewrite (bind_ok _ _ _ _ tok) by (rewrite switch_heater_get_run, Hh; reflexivity).
  rewrite Hoff.
  rewrite (bind_ok _ _ _ _ tt) by reflexivity.
  rewrite (bind_ok _ _ _ _ start) by (rewrite field_get_run, Hf; reflexivity).
  rewrite (bind_ok _ _ _ _ tt) by (rewrite field_target_set_run; reflexivity).
  unfold ramp_to_target.
  destruct (String.eqb label0 "CLAMP") eqn:Hclamp.
  - destruct acks as [|a1 [|a2 [|a3 acks]]]; try discriminate Hacks.
    erewrite (bind_ok (A := unit)); cycle 1.
    { rewrite (bind_ok _ _ _ _ label0) by (rewrite ramp_status_get_run, Hs; reflexivity).
      rewrite Hclamp.
      rewrite (bind_ok _ _ _ _ tt) by apply ramp_status_hold_run.
      apply ramp_status_to_set_run. }
    eexists. split; [|reflexivity].
    rewrite !commands_app. cbn [commands app]. rewrite <- !app_assoc. reflexivity.
  - destruct acks as [|a1 [|a2 acks]]; try discriminate Hacks.
    erewrite (bind_ok (A := unit)); cycle 1.
    { rewrite (bind_ok _ _ _ _ label0) by (rewrite ramp_status_get_run, Hs; reflexivity).
      rewrite Hclamp.
      rewrite (bind_ok _ _ _ _ tt) by reflexivity.
      apply ramp_status_to_set_run. }
    eexists. split; [|reflexivity].
    rewrite !commands_app. cbn [commands app]. rewrite <- !app_assoc. reflexivity.
Qed.

(** The supervised ramp to a target that differs from the field read at
    the start (or whose loop ends at its first status read, without any
    poll), from any status, with a heater that reads anything but OFF:
    while the device answers TO SET with temperatures within the limit, and
    until it answers another status, the driver returns normally after
    exactly the heater, field and status reads, the target write, HOLD only
    if the status was CLAMP, the TO SET write, three reads per iteration
    and a last status read.  The target equal to the field read, with a
    poll, is [ramp_to_present_field]. *)
Theorem supervised_ramp {F : Format} (fuel : nat) (target start : Q) (i : instrument)
    (heater tok field0 echo1 status0 label0 : string) (acks : list string)
    (polls : list poll) (final label : string) (rest : list string) :
  replies i =
    (heater :: field0 :: echo1 :: status0 :: acks ++
       poll_replies polls ++ final :: rest)%list ->
  _preparser heater = Ok tok -> tok <> "OFF" ->
  _singleunit_parser field0 = Ok start ->
  polls = [] \/ ~ start == target ->
  ramp_status_decode status0 = Ok label0 ->
  List.length acks = (if String.eqb label0 "CLAMP" then 2 else 1)%nat ->
  forallb (quiet_poll (t_limit i)) polls = true ->
  ramp_status_decode final = Ok label -> String.eqb label "TO SET" = false ->
  (List.length polls < fuel)%nat ->
  exists i',
    set_field_and_ramp_blocking fuel target i = Some (Ok tt, i') /\
    commands (log i') =
      (commands (log i) ++
       ["READ:DEV:GRPZ:PSU:SIG:SWHT"; "READ:DEV:GRPZ:PSU:SIG:FLD";
        ("SET:DEV:GRPZ:PSU:SIG:FSET:" ++ str target)%string; "READ:DEV:GRPZ:PSU:ACTN"] ++
       (if String.eqb label0 "CLAMP" then ["SET:DEV:GRPZ:PSU:ACTN:HOLD"] else []) ++
       ["SET:DEV:GRPZ:PSU:ACTN:RTOS"] ++
       polls_commands (List.length polls) ++ ["READ:DEV:GRPZ:PSU:ACTN"])%list /\
    replies i' = rest /\ t_limit i' = t_limit i.
Proof.
  destruct i as [tl rp lg]. cbn [replies t_limit log].
  intros -> Hh Hoff Hf Hapart Hs Hacks Hq Hfin Hl Hfuel.
  destruct (ramp_preamble fuel target start tl lg heater tok field0 echo1 status0 label0
              acks (poll_replies polls ++ final :: rest) Hh Hoff Hf Hs Hacks)
    as (lg1 & Hc1 & Hrun1).
  rewrite Hrun1.
  replace fuel with (List.length polls + S (fuel - S (List.length polls)))%nat by lia.
  assert (Hgo : exists lg2,
             commands lg2 = (commands lg1 ++ polls_commands (List.length polls))%list /\
             ramp_poll (List.length polls + S (fuel - S (List.length polls))) start target
               (mkInstrument tl (poll_replies polls ++ final :: rest) lg1) =
             ramp_poll (S (fuel - S (List.length polls))) start target
               (mkInstrument tl (final :: rest) lg2)).
  { destruct Hapart as [-> | Hapart].
    - exists lg1. split; [simpl; rewrite app_nil_r|]; reflexivity.
    - apply (polls_go_on start target tl Hapart polls _ _ lg1 Hq). }
  destruct Hgo as (lg2 & Hc2 & Hrun2).
  rewrite Hrun2, (poll_done _ _ _ _ _ _ _ _ Hfin Hl).
  eexists. split; [reflexivity|]. cbn [log replies t_limit].
  split; [|split; reflexivity].
  rewrite commands_app, Hc2, Hc1. cbn [commands]. rewrite <- !app_assoc. reflexivity.
Qed.

Lemma supervised_ramp_witness :
  exists i',
    @set_field_and_ramp_blocking Show.one_place 2 (-2)
      (init ["STAT:DEV:GRPZ:PSU:SIG:SWHT:ON"; "STAT:DEV:GRPZ:PSU:SIG:FLD:1.5000T"; "ack";
             "STAT:DEV:GRPZ:PSU:ACTN:HOLD"; "ack";
             "STAT:DEV:GRPZ:PSU:ACTN:RTOS"; "STAT:DEV:MB1.T1:TEMP:SIG:TEMP:3.9000K";
             "STAT:DEV:GRPZ:PSU:SIG:FLD:-0.2500T";
             "STAT:DEV:GRPZ:PSU:ACTN:HOLD"]) = Some (Ok tt, i') /\
    commands (log i') =
      ["READ:DEV:GRPZ:PSU:SIG:SWHT"; "READ:DEV:GRPZ:PSU:SIG:FLD";
       "SET:DEV:GRPZ:PSU:SIG:FSET:-2.0"; "READ:DEV:GRPZ:PSU:ACTN";
       "SET:DEV:GRPZ:PSU:ACTN:RTOS";
       "READ:DEV:GRPZ:PSU:ACTN"; "READ:DEV:MB1.T1:TEMP:SIG:TEMP"; "READ:DEV:GRPZ:PSU:SIG:FLD";
       "READ:DEV:GRPZ:PSU:ACTN"] /\
    replies i' = [] /\ t_limit i' = 5.
Proof.
  apply (@supervised_ramp Show.one_place 2 (-2) (3 # 2)
           (init ["STAT:DEV:GRPZ:PSU:SIG:SWHT:ON"; "STAT:DEV:GRPZ:PSU:SIG:FLD:1.5000T"; "ack";
                  "STAT:DEV:GRPZ:PSU:ACTN:HOLD"; "ack";
                  "STAT:DEV:GRPZ:PSU:ACTN:RTOS"; "STAT:DEV:MB1.T1:TEMP:SIG:TEMP:3.9000K";
                  "STAT:DEV:GRPZ:PSU:SIG:FLD:-0.2500T";
                  "STAT:DEV:GRPZ:PSU:ACTN:HOLD"])
           "STAT:DEV:GRPZ:PSU:SIG:SWHT:ON" "ON" "STAT:DEV:GRPZ:PSU:SIG:FLD:1.5000T" "ack"
           "STAT:DEV:GRPZ:PSU:ACTN:HOLD" "HOLD" ["ack"]
           [("STAT:DEV:GRPZ:PSU:ACTN:RTOS", "STAT:DEV:MB1.T1:TEMP:SIG:TEMP:3.9000K",
             "STAT:DEV:GRPZ:PSU:SIG:FLD:-0.2500T")]
           "STAT:DEV:GRPZ:PSU:ACTN:HOLD" "HOLD" []);
    try reflexivity.
  - intros H. discriminate H.
  - right. intros H. discriminate H.
  - simpl. lia.
Defined.

(** A ramp to the field the magnet already has: if the first poll still
    reads TO SET, with the temperature within the limit, the progress
    report divides by zero.  The driver raises ZeroDivisionError after the
    field read of that poll; TO SET is the last thing it wrote, no HOLD
    follows. *)
Theorem ramp_to_present_field {F : Format} (fuel : nat) (target start : Q) (i : instrument)
    (heater tok field0 echo1 status0 label0 : string) (acks : list string)
    (s t f : string) (rest : list string) :
  replies i = (heater :: field0 :: echo1 :: status0 :: acks ++ s :: t :: f :: rest)%list ->
  _preparser heater = Ok tok -> tok <> "OFF" ->
  _singleunit_parser field0 = Ok start ->
  start == target ->
  ramp_status_decode status0 = Ok label0 ->
  List.length acks = (if String.eqb label0 "CLAMP" then 2 else 1)%nat ->
  quiet_poll (t_limit i) (s, t, f) = true ->
  (0 < fuel)%nat ->
  exists i',
    set_field_and_ramp_blocking fuel target i = Some (Raise ZeroDivisionError, i') /\
    commands (log i') =
      (commands (log i) ++
       ["READ:DEV:GRPZ:PSU:SIG:SWHT"; "READ:DEV:GRPZ:PSU:SIG:FLD";
        ("SET:DEV:GRPZ:PSU:SIG:FSET:" ++ str target)%string; "READ:DEV:GRPZ:PSU:ACTN"] ++
       (if String.eqb label0 "CLAMP" then ["SET:DEV:GRPZ:PSU:ACTN:HOLD"] else []) ++
       ["SET:DEV:GRPZ:PSU:ACTN:RTOS"] ++ poll_commands)%list /\
    replies i' = rest /\ t_limit i' = t_limit i.
Proof.
  destruct i as [tl rp lg]. cbn [replies t_limit log].
  intros -> Hh Hoff Hf Heq Hs Hacks Hq Hfuel.
  destruct (ramp_preamble fuel target start tl lg heater tok field0 echo1 status0 label0
              acks (s :: t :: f :: rest) Hh Hoff Hf Hs Hacks)
    as (lg1 & Hc1 & Hrun1).
  rewrite Hrun1. destruct fuel as [|fuel]; [lia|].
  apply quiet_poll_inv in Hq as (Hst & tv & fv & Ht & Hle & Hfv).
  rewrite (poll_safe _ _ _ _ _ _ _ _ _ Hst Ht Hle).
  rewrite (bind_ok _ _ _ _ fv) by (rewrite field_get_run, Hfv; reflexivity).
  erewrite bind_raise; cycle 1.
  { apply bind_raise. unfold lift, progress.
    apply Qeq_bool_difference in Heq. rewrite Heq. reflexivity. }
  eexists. split; [reflexivity|]. cbn [log replies t_limit].
  split; [|split; reflexivity].
  rewrite !commands_app, Hc1. cbn [commands]. rewrite <- !app_assoc. reflexivity.
Qed.

Lemma ramp_to_present_field_witness :
  exists i',
    @set_field_and_ramp_blocking Show.one_place 4 1
      (init ["STAT:DEV:GRPZ:PSU:SIG:SWHT:ON"; "STAT:DEV:GRPZ:PSU:SIG:FLD:1.0000T"; "ack";
             "STAT:DEV:GRPZ:PSU:ACTN:HOLD"; "ack";
             "STAT:DEV:GRPZ:PSU:ACTN:RTOS"; "STAT:DEV:MB1.T1:TEMP:SIG:TEMP:3.9000K";
             "STAT:DEV:GRPZ:PSU:SIG:FLD:1.0000T";
             "STAT:DEV:GRPZ:PSU:ACTN:HOLD"]) = Some (Raise ZeroDivisionError, i') /\
    commands (log i') =
      ["READ:DEV:GRPZ:PSU:SIG:SWHT"; "READ:DEV:GRPZ:PSU:SIG:FLD";
       "SET:DEV:GRPZ:PSU:SIG:FSET:1.0"; "READ:DEV:GRPZ:PSU:ACTN";
       "SET:DEV:GRPZ:PSU:ACTN:RTOS";
       "READ:DEV:GRPZ:PSU:ACTN"; "READ:DEV:MB1.T1:TEMP:SIG:TEMP"; "READ:DEV:GRPZ:PSU:SIG:FLD"] /\
    replies i' = ["STAT:DEV:GRPZ:PSU:ACTN:HOLD"] /\ t_limit i' = 5.
Proof.
  apply (@ramp_to_present_field Show.one_place 4 1 1
           (init ["STAT:DEV:GRPZ:PSU:SIG:SWHT:ON"; "STAT:DEV:GRPZ:PSU:SIG:FLD:1.0000T"; "ack";
                  "STAT:DEV:GRPZ:PSU:ACTN:HOLD"; "ack";
                  "STAT:DEV:GRPZ:PSU:ACTN:RTOS"; "STAT:DEV:MB1.T1:TEMP:SIG:TEMP:3.9000K";
                  "STAT:DEV:GRPZ:PSU:SIG:FLD:1.0000T";
                  "STAT:DEV:GRPZ:PSU:ACTN:HOLD"])
           "STAT:DEV:GRPZ:PSU:SIG:SWHT:ON" "ON" "STAT:DEV:GRPZ:PSU:SIG:FLD:1.0000T" "ack"
           "STAT:DEV:GRPZ:PSU:ACTN:HOLD" "HOLD" ["ack"]
           "STAT:DEV:GRPZ:PSU:ACTN:RTOS" "STAT:DEV:MB1.T1:TEMP:SIG:TEMP:3.9000K"
           "STAT:DEV:GRPZ:PSU:SIG:FLD:1.0000T" ["STAT:DEV:GRPZ:PSU:ACTN:HOLD"]);
    try reflexivity.
  - intros H. discriminate H.
  - lia.
Defined.

(** ** The temperature limit *)

(** Setting the limit sends nothing, and the limit set is the one the next
    poll compares with, whatever the limit was before: a temperature above
    it makes HOLD the next command and the driver raises; at or below it
    the poll goes on to the field read. *)
Theorem temp_limit_takes_effect {F : Format} (x : Q) (fuel : nat) (start target : Q)
    (i : instrument) (s t : string) (tv : Q) (rest : list string) :
  replies i = s :: t :: rest ->
  ramp_status_decode s = Ok "TO SET" ->
  _singleunit_parser t = Ok tv ->
  temp_limit_set x i = Some (Ok tt, mkInstrument x (replies i) (log i)) /\
  (temp_limit_set x ;; temp_limit_get) i = Some (Ok x, mkInstrument x (replies i) (log i)) /\
  (x < tv ->
   exists e i' more,
     (temp_limit_set x ;; ramp_poll (S fuel) start target) i = Some (Raise e, i') /\
     commands (log i') =
       (commands (log i) ++
        ["READ:DEV:GRPZ:PSU:ACTN"; "READ:DEV:MB1.T1:TEMP:SIG:TEMP";
         "SET:DEV:GRPZ:PSU:ACTN:HOLD"] ++ more)%list /\
     (more = [] \/ more = ["READ:DEV:MB1.T1:TEMP:SIG:TEMP"])) /\
  (tv <= x ->
   (temp_limit_set x ;; ramp_poll (S fuel) start target) i =
   (current <- field_get ;;
    _print_field_status start current target ;;
    ramp_poll fuel start target)
     (mkInstrument x rest
        (log i ++ [Send "READ:DEV:GRPZ:PSU:ACTN"; Send "READ:DEV:MB1.T1:TEMP:SIG:TEMP";
                   Sleep (1 # 10)]))).
Proof.
  destruct i as [tl rp lg]. cbn [replies t_limit log]. intros -> Hs Ht.
  split; [reflexivity|]. split; [reflexivity|]. split.
  - intros Hlt. rewrite (bind_ok _ _ _ _ tt) by reflexivity.
    cbn [replies log]. rewrite (poll_trip _ _ _ _ _ _ _ _ _ Hs Ht Hlt).
    destruct (trip_raises x rest
                (lg ++ [Send "READ:DEV:GRPZ:PSU:ACTN"; Send "READ:DEV:MB1.T1:TEMP:SIG:TEMP"]))
      as (e & i' & more & Hrun & Hc & Hmore).
    exists e, i', more. split; [exact Hrun|]. split; [|exact Hmore].
    rewrite Hc, commands_app. cbn [commands app]. rewrite <- app_assoc. reflexivity.
  - intros Hle. rewrite (bind_ok _ _ _ _ tt) by reflexivity.
    cbn [replies log]. apply (poll_safe _ _ _ _ _ _ _ _ _ Hs Ht Hle).
Qed.

Lemma temp_limit_takes_effect_witness :
  exists e i' more,
    (temp_limit_set 4 ;; @ramp_poll Show.one_place 1 0 1)
      (init ["STAT:DEV:GRPZ:PSU:ACTN:RTOS"; "STAT:DEV:MB1.T1:TEMP:SIG:TEMP:4.5000K"]) =
    Some (Raise e, i') /\
    commands (log i') =
      (["READ:DEV:GRPZ:PSU:ACTN"; "READ:DEV:MB1.T1:TEMP:SIG:TEMP";
        "SET:DEV:GRPZ:PSU:ACTN:HOLD"] ++ more)%list /\
    (more = [] \/ more = ["READ:DEV:MB1.T1:TEMP:SIG:TEMP"]).
Proof.
  apply (proj1 (proj2 (proj2 (@temp_limit_takes_effect Show.one_place 4 0 0 1
           (init ["STAT:DEV:GRPZ:PSU:ACTN:RTOS"; "STAT:DEV:MB1.T1:TEMP:SIG:TEMP:4.5000K"])
           "STAT:DEV:GRPZ:PSU:ACTN:RTOS" "STAT:DEV:MB1.T1:TEMP:SIG:TEMP:4.5000K" (9 # 2) []
           eq_refl eq_refl eq_refl)))).
  reflexivity.
Defined.

(** ** Runs finish: every evaluation of the loop takes a reply *)

Section Finishing.

Context {A B : Type}.

Lemma bounded_ret (a : A) : bounded (ret a).
Proof. intros i. exists (Ok a), i. split; [reflexivity | lia]. Qed.

Lemma bounded_raise (e : exn) : bounded (raise (A := A) e).
Proof. intros i. exists (Raise e), i. split; [reflexivity | lia]. Qed.

Lemma bounded_lift (o : outcome A) : bounded (lift o).
Proof. intros i. exists o, i. split; [reflexivity | lia]. Qed.

Lemma bounded_bind (m : M A) (k : A -> M B) :
  bounded m -> (forall a, bounded (k a)) -> bounded (bind m k).
Proof.
  intros Hm Hk i. destruct (Hm i) as (o & i1 & Hrun & Hlen).
  unfold bind. rewrite Hrun. destruct o as [a | e].
  - destruct (Hk a i1) as (o2 & i2 & Hrun2 & Hlen2).
    exists o2, i2. split; [exact Hrun2 | lia].
  - exists (Raise e), i1. split; [reflexivity | exact Hlen].
Qed.

Lemma consuming_bind (m : M A) (k : A -> M B) :
  consuming m -> (forall a, bounded (k a)) -> consuming (bind m k).
Proof.
  intros Hm Hk i. destruct (Hm i) as (o & i1 & Hrun & Hlen).
  unfold bind. rewrite Hrun. destruct o as [a | e].
  - destruct (Hk a i1) as (o2 & i2 & Hrun2 & Hlen2).
    exists o2, i2. split; [exact Hrun2|]. destruct o2; lia.
  - exists (Raise e), i1. split; [reflexivity | exact Hlen].
Qed.

Lemma finishes_bounded (n : nat) (m : M A) : bounded m -> finishes n m.
Proof. intros Hm i _. destruct (Hm i) as (o & i' & Hrun & _). eauto. Qed.

Lemma finishes_bind_bounded (n : nat) (m : M A) (k : A -> M B) :
  bounded m -> (forall a, finishes n (k a)) -> finishes n (bind m k).
Proof.
  intros Hm Hk i Hi. destruct (Hm i) as (o & i1 & Hrun & Hlen).
  unfold bind. rewrite Hrun. destruct o as [a | e]; [|eauto].
  apply Hk. lia.
Qed.

Lemma finishes_bind_consuming (n : nat) (m : M A) (k : A -> M B) :
  consuming m -> (forall a, finishes n (k a)) -> finishes (S n) (bind m k).
Proof.
  intros Hm Hk i Hi. destruct (Hm i) as (o & i1 & Hrun & Hlen).
  unfold bind. rewrite Hrun. destruct o as [a | e]; [|eauto].
  apply Hk. lia.
Qed.

End Finishing.

Lemma bounded_emit (e : event) : bounded (emit e).
Proof. intros i. do 2 eexists. split; [reflexivity | cbn [replies]; lia]. Qed.

Lemma bounded_t_limit_reader : bounded t_limit_reader.
Proof. intros i. do 2 eexists. split; [reflexivity | lia]. Qed.

Lemma consuming_ask (cmd : string) : consuming (ask cmd).
Proof.
  intros [tl [|r rs] lg]; do 2 eexists; (split; [reflexivity|]); cbn [replies List.length]; lia.
Qed.

Lemma consuming_bounded {A : Type} (m : M A) : consuming m -> bounded m.
Proof.
  intros Hm i. destruct (Hm i) as (o & i' & Hrun & Hlen).
  exists o, i'. split; [exact Hrun|]. destruct o; lia.
Qed.

Lemma finishes_weaken {A : Type} (n : nat) (m : M A) : finishes (S n) m -> finishes n m.
Proof. intros Hm i Hi. apply Hm. lia. Qed.

Ltac bounded_step :=
  first [ apply bounded_ret | apply bounded_raise | apply bounded_lift | apply bounded_emit
        | apply bounded_t_limit_reader
        | apply consuming_bounded, consuming_ask
        | apply bounded_bind; [|intros ?] ].

Ltac bounded_run := repeat bounded_step.

Lemma consuming_ramp_status_get : consuming ramp_status_get.
Proof. apply consuming_bind; [apply consuming_ask | intros r; apply bounded_lift]. Qed.

Lemma bounded_ramp_status_set (label : string) : bounded (ramp_status_set label).
Proof. unfold ramp_status_set. destruct (lookup label val_mapping); bounded_run. Qed.

Lemma bounded_print_field_status {F : Format} (start current stop : Q) :
  bounded (_print_field_status start current stop).
Proof.
  unfold _print_field_status. apply bounded_bind; [apply bounded_lift|].
  intros status. destruct (Qlt_le_dec status 1); apply bounded_emit.
Qed.

Lemma ramp_poll_finishes {F : Format} (start target : Q) (fuel : nat) :
  finishes fuel (ramp_poll fuel start target).
Proof.
  induction fuel as [|fuel IH]; [intros i Hi; lia|].
  cbn [ramp_poll]. apply finishes_bind_consuming; [apply consuming_ramp_status_get|].
  intros status. destruct (String.eqb status "TO SET");
    [|apply finishes_bounded, bounded_ret].
  apply finishes_bind_bounded; [unfold temp_get; bounded_run|]. intros t.
  apply finishes_bind_bounded; [apply bounded_t_limit_reader|]. intros limit.
  destruct (Qlt_le_dec limit t).
  - apply finishes_bounded.
    apply bounded_bind; [apply bounded_ramp_status_set|]. intros _.
    unfold temp_limit_get, temp_get. bounded_run.
  - apply finishes_bind_bounded; [apply bounded_emit|]. intros _.
    apply finishes_bind_bounded; [unfold field_get; bounded_run|]. intros current.
    apply finishes_bind_bounded; [apply bounded_print_field_status|]. intros _.
    exact IH.
Qed.

(** With more fuel than the device has replies left, the polling loop and
    the whole supervised ramp finish, normally or with an exception: the
    loop cannot spin without talking to the device. *)
Theorem supervised_ramp_finishes {F : Format} (fuel : nat) (start target : Q)
    (i : instrument) :
  (List.length (replies i) < fuel)%nat ->
  (exists o i', ramp_poll fuel start target i = Some (o, i')) /\
  (exists o i', set_field_and_ramp_blocking fuel target i = Some (o, i')).
Proof.
  intros Hi. split.
  - destruct (ramp_poll_finishes start target fuel i Hi) as [[o i'] Hrun]. eauto.
  - assert (Hfin : finishes fuel (set_field_and_ramp_blocking fuel target)).
    { unfold set_field_and_ramp_blocking.
      apply finishes_bind_bounded; [unfold switch_heater_get; bounded_run|]. intros h.
      apply finishes_bind_bounded.
      { destruct (String.eqb h "OFF"); [unfold raise_print|]; bounded_run. }
      intros _.
      apply finishes_bind_bounded; [unfold field_get; bounded_run|]. intros start0.
      apply finishes_bind_bounded; [unfold field_target_set; bounded_run|]. intros _.
      apply finishes_bind_bounded.
      { unfold ramp_to_target.
        apply bounded_bind; [apply consuming_bounded, consuming_ramp_status_get|].
        intros status. apply bounded_bind; [|intros _; apply bounded_ramp_status_set].
        destruct (String.eqb status "CLAMP");
          [apply bounded_ramp_status_set | apply bounded_ret]. }
      intros _. apply ramp_poll_finishes. }
    destruct (Hfin i Hi) as [[o i'] Hrun]. eauto.
Qed.

Lemma supervised_ramp_finishes_witness :
  (exists o i',
     @ramp_poll Show.one_place 3 0 1
       (init ["STAT:DEV:GRPZ:PSU:ACTN:RTOS"; "garbled"]) = Some (o, i')) /\
  (exists o i',
     @set_field_and_ramp_blocking Show.one_place 3 1
       (init ["STAT:DEV:GRPZ:PSU:ACTN:RTOS"; "garbled"]) = Some (o, i')).
Proof.
  apply (@supervised_ramp_finishes Show.one_place 3 0 1
           (init ["STAT:DEV:GRPZ:PSU:ACTN:RTOS"; "garbled"])).
  simpl. lia.
Defined.

(** ** What a run sends *)

Section Sending.

Context {A B : Type}.
Variable allowed : string -> bool.

Lemma sends_ret (a : A) : sends allowed (ret a).
Proof.
  intros i o i' H. injection H as <- <-. split; [reflexivity|].
  exists []. split; [rewrite app_nil_r|]; reflexivity.
Qed.

Lemma sends_raise (e : exn) : sends allowed (raise (A := A) e).
Proof.
  intros i o i' H. injection H as <- <-. split; [reflexivity|].
  exists []. split; [rewrite app_nil_r|]; reflexivity.
Qed.

Lemma sends_lift (o : outcome A) : sends allowed (lift o).
Proof.
  intros i o' i' H. injection H as <- <-. split; [reflexivity|].
  exists []. split; [rewrite app_nil_r|]; reflexivity.
Qed.

Lemma sends_bind (m : M A) (k : A -> M B) :
  sends allowed m -> (forall a, sends allowed (k a)) -> sends allowed (bind m k).
Proof.
  intros Hm Hk i o i' H. unfold bind in H.
  destruct (m i) as [[[a | e] i1]|] eqn:Hrun; [| |discriminate].
  - destruct (Hm _ _ _ Hrun) as (Ht1 & n1 & Hl1 & Ha1).
    destruct (Hk a _ _ _ H) as (Ht2 & n2 & Hl2 & Ha2).
    split; [congruence|]. exists (n1 ++ n2)%list.
    rewrite Hl2, Hl1, <- app_assoc, commands_app, forallb_app, Ha1, Ha2. auto.
  - injection H as <- <-. exact (Hm _ _ _ Hrun).
Qed.

End Sending.

Lemma sends_emit (allowed : string -> bool) (e : event) :
  forallb allowed (commands [e]) = true -> sends allowed (emit e).
Proof.
  intros He i o i' H. injection H as <- <-. split; [reflexivity|].
  exists [e]. split; [reflexivity | exact He].
Qed.

Lemma sends_ask (allowed : string -> bool) (cmd : string) :
  allowed cmd = true -> sends allowed (ask cmd).
Proof.
  intros Hc [tl [|r rs] lg] o i' H; injection H as <- <-; (split; [reflexivity|]);
    exists [Send cmd]; (split; [reflexivity|]); cbn [commands forallb]; rewrite Hc; reflexivity.
Qed.

Lemma sends_t_limit_reader (allowed : string -> bool) : sends allowed t_limit_reader.
Proof.
  intros i o i' H. injection H as <- <-. split; [reflexivity|].
  exists []. split; [rewrite app_nil_r|]; reflexivity.
Qed.

Lemma sends_weaken {A : Type} (allowed allowed' : string -> bool) (m : M A) :
  (forall cmd, allowed cmd = true -> allowed' cmd = true) ->
  sends allowed m -> sends allowed' m.
Proof.
  intros Hw Hm i o i' H. destruct (Hm _ _ _ H) as (Ht & new & Hl & Ha).
  split; [exact Ht|]. exists new. split; [exact Hl|].
  apply forallb_forall. intros cmd Hin. apply Hw.
  rewrite forallb_forall in Ha. apply Ha, Hin.
Qed.

Lemma raises_raise {A : Type} (e : exn) : raises (raise (A := A) e).
Proof. intros i o i' H. injection H as <- _. eauto. Qed.

Lemma raises_bind {A B : Type} (m : M A) (k : A -> M B) :
  (forall a, raises (k a)) -> raises (bind m k).
Proof.
  intros Hk i o i' H. unfold bind in H.
  destruct (m i) as [[[a | e] i1]|] eqn:Hrun; [| |discriminate].
  - exact (Hk a _ _ _ H).
  - injection H as <- _. eauto.
Qed.

Ltac sends_step :=
  first [ apply sends_ret | apply sends_raise | apply sends_lift | apply sends_t_limit_reader
        | apply sends_ask; reflexivity
        | apply sends_emit; reflexivity
        | apply sends_bind; [|intros ?] ].

Ltac sends_run := repeat sends_step.

Lemma loop_read_split (l : list string) :
  forallb loop_read l = true ->
  forallb loop_command l = true /\ forallb (fun cmd => negb (is_write cmd)) l = true.
Proof.
  induction l as [|cmd l IH]; [auto|]. cbn [forallb]. unfold loop_read at 1.
  intros H. apply andb_true_iff in H as [Hc Hl]. apply andb_true_iff in Hc as [Hc Hw].
  destruct (IH Hl) as [H1 H2]. rewrite Hc, Hw, H1, H2. auto.
Qed.

Lemma loop_run_ret {A : Type} (a : A) : loop_run (ret a).
Proof.
  intros i o i' H. injection H as <- <-. split; [reflexivity|].
  exists []. split; [rewrite app_nil_r; reflexivity|]. split; reflexivity.
Qed.

Lemma loop_run_bind {A B : Type} (m : M A) (k : A -> M B) :
  sends loop_read m -> (forall a, loop_run (k a)) -> loop_run (bind m k).
Proof.
  intros Hm Hk i o i' H. unfold bind in H.
  destruct (m i) as [[[a | e] i1]|] eqn:Hrun; [| |discriminate].
  - destruct (Hm _ _ _ Hrun) as (Ht1 & n1 & Hl1 & Ha1).
    apply loop_read_split in Ha1 as [Hc1 Hr1].
    destruct (Hk a _ _ _ H) as (Ht2 & n2 & Hl2 & Hc2 & Hr2).
    split; [congruence|]. exists (n1 ++ n2)%list.
    rewrite Hl2, Hl1, <- app_assoc. split; [reflexivity|]. split.
    + rewrite commands_app, forallb_app, Hc1, Hc2. reflexivity.
    + intros b Hb. unfold reads_only in *.
      rewrite commands_app, forallb_app, Hr1, (Hr2 b Hb). reflexivity.
  - injection H as <- <-.
    destruct (Hm _ _ _ Hrun) as (Ht1 & n1 & Hl1 & Ha1).
    apply loop_read_split in Ha1 as [Hc1 Hr1].
    split; [exact Ht1|]. exists n1. split; [exact Hl1|]. split; [exact Hc1|].
    intros b Hb. discriminate Hb.
Qed.

Lemma loop_run_raises {A : Type} (m : M A) :
  sends loop_command m -> raises m -> loop_run m.
Proof.
  intros Hs Hr i o i' H. destruct (Hs _ _ _ H) as (Ht & new & Hl & Ha).
  split; [exact Ht|]. exists new. split; [exact Hl|]. split; [exact Ha|].
  intros a Ha'. destruct (Hr _ _ _ H) as [e He]. congruence.
Qed.

Lemma ramp_poll_loop_run {F : Format} (start target : Q) (fuel : nat) :
  loop_run (ramp_poll fuel start target).
Proof.
  induction fuel as [|fuel IH]; [intros i o i' H; discriminate H|].
  cbn [ramp_poll].
  apply loop_run_bind; [unfold ramp_status_get; sends_run|]. intros status.
  destruct (String.eqb status "TO SET"); [|apply loop_run_ret].
  apply loop_run_bind; [unfold temp_get; sends_run|]. intros t.
  apply loop_run_bind; [apply sends_t_limit_reader|]. intros limit.
  destruct (Qlt_le_dec limit t).
  - apply loop_run_raises.
    + unfold temp_limit_get, temp_get. apply sends_bind; [|intros _; sends_run].
      cbn. sends_run.
    + repeat (apply raises_bind; intros ?). apply raises_raise.
  - apply loop_run_bind; [unfold sleep; sends_run|]. intros _.
    apply loop_run_bind; [unfold field_get; sends_run|]. intros current.
    apply loop_run_bind; [|intros _; exact IH].
    unfold _print_field_status. apply sends_bind; [apply sends_lift|].
    intros status'. destruct (Qlt_le_dec status' 1); sends_run.
Qed.

(** Whatever the device answers, a finished run of the polling loop has
    kept the temperature limit and has only added to the log; the commands
    it sent are status, temperature and field reads and the HOLD write; and
    if it returned normally it sent reads only: HOLD is never followed by a
    normal return. *)
Theorem ramp_poll_commands {F : Format} (fuel : nat) (start target : Q)
    (i i' : instrument) (o : outcome unit) :
  ramp_poll fuel start target i = Some (o, i') ->
  t_limit i' = t_limit i /\
  exists new,
    log i' = (log i ++ new)%list /\
    forallb loop_command (commands new) = true /\
    (o = Ok tt -> reads_only new = true).
Proof.
  intros H. destruct (ramp_poll_loop_run start target fuel i o i' H)
    as (Ht & new & Hl & Hc & Hr).
  split; [exact Ht|]. exists new. split; [exact Hl|]. split; [exact Hc|].
  intros Ho. exact (Hr tt Ho).
Qed.

Lemma ramp_poll_commands_witness :
  t_limit (mkInstrument 5 ["next"] [Send "READ:DEV:GRPZ:PSU:ACTN"]) =
  t_limit (init ["STAT:DEV:GRPZ:PSU:ACTN:HOLD"; "next"]) /\
  exists new,
    log (mkInstrument 5 ["next"] [Send "READ:DEV:GRPZ:PSU:ACTN"]) =
    (log (init ["STAT:DEV:GRPZ:PSU:ACTN:HOLD"; "next"]) ++ new)%list /\
    forallb loop_command (commands new) = true /\
    (Ok tt = Ok tt -> reads_only new = true).
Proof.
  apply (@ramp_poll_commands Show.one_place 1 0 1
           (init ["STAT:DEV:GRPZ:PSU:ACTN:HOLD"; "next"])).
  reflexivity.
Defined.

Lemma ramp_command_target {F : Format} (target : Q) :
  ramp_command target ("SET:DEV:GRPZ:PSU:SIG:FSET:" ++ str target) = true.
Proof.
  unfold ramp_command. cbn [existsb].
  rewrite String.eqb_refl, !orb_true_r. reflexivity.
Qed.

Lemma loop_command_ramp_command {F : Format} (target : Q) (cmd : string) :
  loop_command cmd = true -> ramp_command target cmd = true.
Proof.
  unfold loop_command, poll_commands. cbn [existsb]. intros H.
  repeat (apply orb_true_iff in H as [H | H]);
    try discriminate H; apply String.eqb_eq in H; subst cmd; reflexivity.
Qed.

Lemma sends_ramp_status_set {F : Format} (target : Q) (label : string) :
  label = "HOLD" \/ label = "TO SET" -> sends (ramp_command target) (ramp_status_set label).
Proof. intros [-> | ->]; cbn; sends_run. Qed.

Lemma sends_ramp_poll {F : Format} (fuel : nat) (start target : Q) :
  sends (ramp_command target) (ramp_poll fuel start target).
Proof.
  apply (sends_weaken loop_command); [apply loop_command_ramp_command|].
  intros i o i' H.
  destruct (ramp_poll_loop_run start target fuel i o i' H) as (Ht & new & Hl & Hc & _).
  eauto.
Qed.

(** Whatever the device answers, a finished supervised ramp has kept the
    temperature limit and has sent nothing but: reads of the heater, the
    field, the status and the temperature, and writes of the requested
    target, of HOLD and of TO SET.  It never writes to the switch heater,
    and never another target or ramp mode. *)
Theorem supervised_ramp_commands {F : Format} (fuel : nat) (target : Q)
    (i i' : instrument) (o : outcome unit) :
  set_field_and_ramp_blocking fuel target i = Some (o, i') ->
  t_limit i' = t_limit i /\
  exists new,
    log i' = (log i ++ new)%list /\ forallb (ramp_command target) (commands new) = true.
Proof.
  revert i o i'. change (sends (ramp_command target) (set_field_and_ramp_blocking fuel target)).
  unfold set_field_and_ramp_blocking.
  apply sends_bind; [unfold switch_heater_get; sends_run|]. intros h.
  apply sends_bind.
  { destruct (String.eqb h "OFF"); [unfold raise_print|]; sends_run. }
  intros _.
  apply sends_bind; [unfold field_get; sends_run|]. intros start.
  apply sends_bind.
  { unfold field_target_set. apply sends_bind; [|intros _; apply sends_ret].
    apply sends_ask, ramp_command_target. }
  intros _.
  apply sends_bind; [|intros _; apply sends_ramp_poll].
  unfold ramp_to_target.
  apply sends_bind; [unfold ramp_status_get; sends_run|]. intros status.
  apply sends_bind; [|intros _; apply sends_ramp_status_set; auto].
  destruct (String.eqb status "CLAMP"); [apply sends_ramp_status_set; auto | apply sends_ret].
Qed.

Lemma supervised_ramp_commands_witness :
  exists i',
    @set_field_and_ramp_blocking Show.one_place 3 1 (init device_from_clamp) = Some (Ok tt, i') /\
    (t_limit i' = t_limit (init device_from_clamp) /\
     exists new,
       log i' = (log (init device_from_clamp) ++ new)%list /\
       forallb (@ramp_command Show.one_place 1) (commands new) = true).
Proof.
  eexists. split; [vm_compute; reflexivity|].
  apply (@supervised_ramp_commands Show.one_place 3 1 (init device_from_clamp) _ (Ok tt)).
  vm_compute. reflexivity.
Defined.
